(** * App-Store-Data: the repository's maintenance scripts

    A shallow embedding of two Node.js scripts of the repository:

    - the update checker, which scans [./repositories] for [metadata.json]
      files and asks the GitHub API whether the tracked files of each
      registered repository changed upstream (module [CheckUpdates]);
    - the generator of [releases/categories.json], which combines the
      per-category files into one index (module [GenerateCategories]).

    JavaScript strings are [string], counters and other numbers that hold
    integers are [Z], a sum that may round is a [Number], array lengths
    are [nat].  What the scripts obtain from the file system,
    from the GitHub API and from the process environment is a [World] record;
    what they print, request and wait for is a list of [Event]s. *)

From Stdlib Require Import String Ascii List ZArith Bool Lia.
From Stdlib Require Import Sorting.Sorted Sorting.Permutation.
Import ListNotations.

Local Open Scope string_scope.
Local Open Scope list_scope.

(* ===================================================================== *)
(** ** JavaScript string methods used by the scripts *)
(* ===================================================================== *)

(** [s.startsWith(p)] *)
Fixpoint startsWith (s p : string) {struct p} : bool :=
  match p, s with
  | EmptyString, _ => true
  | String _ _, EmptyString => false
  | String c p', String d s' => Ascii.eqb c d && startsWith s' p'
  end.

(** [s.endsWith(p)] *)
Fixpoint endsWith (s p : string) : bool :=
  String.eqb s p ||
  match s with
  | EmptyString => false
  | String _ s' => endsWith s' p
  end.

(** [s.includes(t)]: [t] occurs in [s] at some position. *)
Fixpoint includes (s t : string) : bool :=
  startsWith s t ||
  match s with
  | EmptyString => false
  | String _ s' => includes s' t
  end.

(** [s.slice(1)] *)
Definition slice1 (s : string) : string :=
  match s with
  | EmptyString => EmptyString
  | String _ s' => s'
  end.

(** [s.slice(n)] for [0 <= n]. *)
Fixpoint sliceFrom (n : nat) (s : string) : string :=
  match n, s with
  | O, _ => s
  | S _, EmptyString => EmptyString
  | S n', String _ s' => sliceFrom n' s'
  end.

(** [s.replace(pat, rep)] with a string pattern: the first occurrence only. *)
Fixpoint replaceFirst (s pat rep : string) : string :=
  if startsWith s pat then rep ++ sliceFrom (String.length pat) s
  else match s with
       | EmptyString => EmptyString
       | String c s' => String c (replaceFirst s' pat rep)
       end.

(** [s.replace(/\\/g, '/')]: every backslash becomes a slash. *)
Fixpoint backslashesToSlashes (s : string) : string :=
  match s with
  | EmptyString => EmptyString
  | String c s' =>
      String (if Ascii.eqb c "\" then "/"%char else c) (backslashesToSlashes s')
  end.

(** A JavaScript value that may be [null] or [undefined]. *)
Inductive Nullable (A : Type) : Type :=
| null
| undefined
| value (a : A).
Arguments null {A}.
Arguments undefined {A}.
Arguments value {A} a.

(** [s.split('\n')[0]]: the text before the first line feed. *)
Fixpoint firstLine (s : string) : string :=
  match s with
  | EmptyString => EmptyString
  | String c s' =>
      if Ascii.eqb c "010"%char then EmptyString else String c (firstLine s')
  end.

(** [s || d] for an optional string: [undefined] and [''] are falsy. *)
Definition orElse (s : option string) (d : string) : string :=
  match s with
  | Some EmptyString | None => d
  | Some s' => s'
  end.

(** A JavaScript number that holds an integer, or one of the values that
    adding such numbers can give besides. *)
Inductive Number : Type :=
| Finite (integer : Z)
| Infinity
| NegInfinity
| NaN.

(** The double nearest to the integer [x], ties to the even significand:
    [x] itself up to 2^53, a multiple of the unit in the last of 53 binary
    places beyond, an infinity from 2^1024 - 2^970 on. *)
Definition roundInteger (x : Z) : Number :=
  let a := Z.abs x in
  if (a <=? 2 ^ 53)%Z then Finite x
  else
    let ulp := (2 ^ (Z.log2 a - 52))%Z in
    let q := (a / ulp)%Z in
    let r := (a mod ulp)%Z in
    let q' :=
      if (2 * r <? ulp)%Z then q
      else if (ulp <? 2 * r)%Z then (q + 1)%Z
      else if Z.even q then q else (q + 1)%Z in
    let m := (q' * ulp)%Z in
    if (2 ^ 1024 <=? m)%Z then (if (x <? 0)%Z then NegInfinity else Infinity)
    else Finite (Z.sgn x * m).

(** [a + b] on numbers: the exact sum, rounded. *)
Definition jsAdd (a b : Number) : Number :=
  match a, b with
  | NaN, _ | _, NaN => NaN
  | Infinity, NegInfinity | NegInfinity, Infinity => NaN
  | Infinity, _ | _, Infinity => Infinity
  | NegInfinity, _ | _, NegInfinity => NegInfinity
  | Finite x, Finite y => roundInteger (x + y)
  end.

(* ===================================================================== *)
(** ** The update checker *)
(* ===================================================================== *)

Module CheckUpdates.

(** *** Data *)

(** An entry of [metadata.files]: a string, or an object that may have a
    [source] (anything else in the object is not read). *)
Inductive FileEntry : Type :=
| FString (file : string)
| FObject (source : option string).

(** A parsed [metadata.json].  [path] is optional; [files] is [None] when
    the field is missing or is not an array. *)
Record Metadata : Type := {
  name : string;
  owner : string;
  repo : string;
  commit : string;
  path : option string;
  files : option (list FileEntry)
}.

(** An element of the [listCommits] response: [sha],
    [commit.committer.date] and [commit.message]. *)
Record Commit : Type := {
  sha : string;
  committer_date : string;
  message : string
}.

(** An element of [comparison.data.files]. *)
Record DiffEntry : Type := {
  diff_filename : string;
  diff_status : string;
  diff_additions : Z;
  diff_deletions : Z;
  diff_changes : Z;
  diff_blob_url : string;
  diff_patch : option string
}.

(** The objects built by [getFileChanges]. *)
Record ChangedFile : Type := {
  filename : string;
  status : string;
  additions : Z;
  deletions : Z;
  patch : option string
}.

Record Changes : Type := {
  totalChanges : nat;
  relevantChanges : nat;
  changedFiles : list ChangedFile      (* the [files] field *)
}.

(** A directory as [fs.readdirSync(dir, { withFileTypes: true })] sees it:
    the call throws, or lists entries; an entry is a directory (with its
    own contents) or something else. *)
Inductive Dir : Type :=
| Unreadable
| Listing (entries : list Dirent)
with Dirent : Type :=
| Directory (entry_name : string) (contents : Dir)   (* entry.isDirectory() *)
| Other (entry_name : string).

(** Everything outside the script. *)
Record World : Type := {
  (** the tree under [./repositories] *)
  repositories : Dir;
  (** [JSON.parse(fs.readFileSync(file, 'utf8'))]; [None] when it throws *)
  readMetadata : string -> option Metadata;
  (** [octokit.rest.repos.listCommits({owner, repo, path, per_page: 1})]:
      [response.data], or [None] when the call throws inside the [try]
      block (the request is rejected, or its answer has no [data]) *)
  listCommits : string -> string -> string -> option (list Commit);
  (** [octokit.rest.repos.compareCommits({owner, repo, base, head})]:
      [comparison.data.files], or [None] when the [try] block throws (the
      request is rejected, or its answer has no list of files) *)
  compareCommits : string -> string -> string -> string -> option (list DiffEntry);
  (** [process.env.DETAILED_OUTPUT === 'true'] *)
  detailedOutput : bool;
  (** [process.env.ONLY_SHOW_UPDATES === 'true'] *)
  onlyShowUpdates : bool
}.

(** *** Effects *)

(** The lines the script prints, one constructor per [console.log] or
    [console.error] call, with the values interpolated into the line. *)
Inductive Line : Type :=
| Starting
| Found (n : nat)
| Checking (name owner repo : string)
| Repository (owner repo : string)
| CurrentCommit (commit : string)
| PathLine (path : string)
| CouldNotFetch
| LatestCommit (sha : string)
| LatestCommitDate (date : string)
| LatestCommitMessage (message : string)
| UpToDate
| UpToDateNoRelevantChanges
| UpdateAvailable
| CompareLink (owner repo base head : string)
| TotalRepositoryChanges (n : nat)
| RelevantFileChanges (n : nat)
| ChangedFilesHeader
| ChangedFileLine (file : ChangedFile)
| Blank
| SummaryHeader
| SummaryChecked (n : Z)
| SummaryUpdates (n : Z)
| SummaryErrors (n : Z)
| SummaryUpToDate (n : Z)
| UpdatesExist (n : Z)
| AllUpToDate
| ErrorFetchingCommits (owner repo : string)
| ErrorComparingCommits
| ErrorProcessing (metadataFile : string)
| UncaughtError.

Inductive Event : Type :=
| Log (l : Line)                                     (* console.log *)
| LogError (l : Line)                                (* console.error *)
| ListCommitsRequest (owner repo path : string) (per_page : Z)
| CompareCommitsRequest (owner repo base head : string)
| Delay (ms : Z)                                     (* setTimeout *)
| ProcessExit (code : Z).                            (* process.exit *)

(** The three counters of [main]. *)
Record Counters : Type := {
  totalChecked : Z;
  updatesAvailable : Z;
  errors : Z
}.

(** A computation reads and updates the counters, emits events in order
    and returns a value. *)
Definition M (A : Type) : Type := Counters -> A * Counters * list Event.

Definition ret {A} (a : A) : M A := fun c => (a, c, []).

Definition bind {A B} (m : M A) (k : A -> M B) : M B :=
  fun c =>
    let '(a, c1, e1) := m c in
    let '(b, c2, e2) := k a c1 in
    (b, c2, e1 ++ e2).

Notation "x <- m ;; k" := (bind m (fun x => k))
  (at level 61, m at next level, right associativity).
Notation "m ;; k" := (bind m (fun _ => k))
  (at level 61, right associativity).

Definition emit (e : Event) : M unit := fun c => (tt, c, [e]).
Definition log (l : Line) : M unit := emit (Log l).
Definition logError (l : Line) : M unit := emit (LogError l).
Definition getCounters : M Counters := fun c => (c, c, []).
Definition modify (f : Counters -> Counters) : M unit := fun c => (tt, f c, []).

(** [if (b) { m }] *)
Definition when (b : bool) (m : M unit) : M unit := if b then m else ret tt.

(** [for (const x of xs) { body }], collecting what each round returns. *)
Fixpoint forEach {A B} (xs : list A) (body : A -> M B) : M (list B) :=
  match xs with
  | [] => ret []
  | x :: xs' => b <- body x ;; bs <- forEach xs' body ;; ret (b :: bs)
  end.

Definition result {A} (r : A * Counters * list Event) : A := fst (fst r).
Definition counters {A} (r : A * Counters * list Event) : Counters := snd (fst r).
Definition events {A} (r : A * Counters * list Event) : list Event := snd r.

(** [totalChecked++], [updatesAvailable++], [errors++] *)
Definition incTotalChecked (c : Counters) : Counters :=
  {| totalChecked := totalChecked c + 1;
     updatesAvailable := updatesAvailable c;
     errors := errors c |}.
Definition incUpdatesAvailable (c : Counters) : Counters :=
  {| totalChecked := totalChecked c;
     updatesAvailable := updatesAvailable c + 1;
     errors := errors c |}.
Definition incErrors (c : Counters) : Counters :=
  {| totalChecked := totalChecked c;
     updatesAvailable := updatesAvailable c;
     errors := errors c + 1 |}.

(** *** getLatestCommit *)

(** What an [async] helper outside [main] gives back: its value and the
    events of the call.  It has no access to the counters of [main]. *)
Definition Async (A : Type) : Type := (A * list Event)%type.

(** [await f(...)] inside [main]. *)
Definition await {A} (call : Async A) : M A := fun c => (fst call, c, snd call).

(** A parameter with the default value [''], which applies when the
    argument is undefined. *)
Definition orEmpty (filePath : option string) : string :=
  match filePath with
  | Some p => p
  | None => ""
  end.

(** [response.data[0]] is [undefined] for an empty list; a rejected request
    is caught, logged and answered with [null]. *)
Definition getLatestCommit (w : World) (owner repo : string)
    (filePath : option string) : Async (Nullable Commit) :=
  let request := ListCommitsRequest owner repo (orEmpty filePath) 1 in
  match listCommits w owner repo (orEmpty filePath) with
  | Some data =>
      (match data with
       | c :: _ => value c
       | [] => undefined
       end, [request])
  | None =>
      (null, [request; LogError (ErrorFetchingCommits owner repo)])
  end.

(** *** getFileChanges *)

(** The callback given to [filePaths.some]. *)
Definition matchesTrackPath (file : DiffEntry) (trackPath : string) : bool :=
  let normalizedTrackPath :=
    if startsWith trackPath "/" then slice1 trackPath else trackPath in
  includes (diff_filename file) normalizedTrackPath
  || includes normalizedTrackPath (diff_filename file).

(** The callback given to [comparison.data.files.filter]. *)
Definition isRelevant (filePaths : list string) (file : DiffEntry) : bool :=
  existsb (matchesTrackPath file) filePaths.

(** The callback given to [relevantFiles.map]. *)
Definition changedFile (file : DiffEntry) : ChangedFile :=
  {| filename := diff_filename file;
     status := diff_status file;
     additions := diff_additions file;
     deletions := diff_deletions file;
     patch := diff_patch file |}.

(** [None] is the [null] returned from the [catch] block. *)
Definition getFileChanges (w : World) (owner repo oldCommit newCommit : string)
    (filePaths : list string) : Async (option Changes) :=
  let request := CompareCommitsRequest owner repo oldCommit newCommit in
  match compareCommits w owner repo oldCommit newCommit with
  | Some comparisonFiles =>
      let relevantFiles := filter (isRelevant filePaths) comparisonFiles in
      (Some {| totalChanges := List.length comparisonFiles;
               relevantChanges := List.length relevantFiles;
               changedFiles := map changedFile relevantFiles |}, [request])
  | None =>
      (None, [request; LogError ErrorComparingCommits])
  end.

Section WithPath.

(** Node's [path.join] of two segments (platform dependent, not part of
    the repository). *)
Variable path_join : string -> string -> string.

(** *** findMetadataFiles *)

(** [None] when a [readdirSync] throws; otherwise what [metadataFiles]
    holds after the walk of [currentDir]. *)
Fixpoint searchRecursively (currentDir : string) (d : Dir)
    : option (list string) :=
  match d with
  | Unreadable => None
  | Listing entries =>
      (fix loop (es : list Dirent) : option (list string) :=
         match es with
         | [] => Some []
         | entry :: rest =>
             let found :=
               match entry with
               | Directory entry_name contents =>
                   searchRecursively (path_join currentDir entry_name) contents
               | Other entry_name =>
                   Some (if String.eqb entry_name "metadata.json"
                         then [path_join currentDir entry_name] else [])
               end in
             match found with
             | None => None
             | Some here =>
                 match loop rest with
                 | None => None
                 | Some there => Some (here ++ there)
                 end
             end
         end) entries
  end.

Definition findMetadataFiles (dir : string) (d : Dir) : option (list string) :=
  searchRecursively dir d.

(** *** main *)

(** Lines 134-144: the paths to track. *)
Definition trackedPaths (metadata : Metadata) : list string :=
  match files metadata with
  | Some fs =>
      filter (fun p => negb (String.eqb p ""))
        (map (fun file =>
                match file with
                | FString file =>
                    backslashesToSlashes
                      (path_join (orElse (path metadata) "/") file)
                | FObject (Some source) =>
                    if String.eqb source "" then ""
                    else backslashesToSlashes
                           (path_join (orElse (path metadata) "/") source)
                | FObject None => ""
                end) fs)
  | None => []
  end.

(** How the round for one metadata file ended: in one of the two
    up-to-date branches (lines 128-131 and 167-170), in the
    update-available branch (lines 171-198, with [updatesAvailable++]), or
    in one of the two error branches (lines 114-120 and 204-207, with
    [errors++]). *)
Inductive Verdict : Type :=
| VUpToDate
| VUpdateAvailable
| VError.

(** Lines 173-180: the header printed late when only updates are shown. *)
Definition showUpdateHeader (metadata : Metadata) (latestCommit : Commit)
    : M unit :=
  log (Checking (name metadata) (owner metadata) (repo metadata)) ;;
  log (Repository (owner metadata) (repo metadata)) ;;
  log (CurrentCommit (commit metadata)) ;;
  log (LatestCommit (sha latestCommit)) ;;
  log (LatestCommitDate (committer_date latestCommit)) ;;
  log (LatestCommitMessage (firstLine (message latestCommit))).

(** Lines 186-196: the details of the changes. *)
Definition showDetails (changes : Changes) : M unit :=
  log (TotalRepositoryChanges (totalChanges changes)) ;;
  log (RelevantFileChanges (relevantChanges changes)) ;;
  when (0 <? List.length (changedFiles changes))%nat
    (log ChangedFilesHeader ;;
     forEach (changedFiles changes) (fun file => log (ChangedFileLine file)) ;;
     ret tt).

(** Lines 132-198: the recorded commit is not the latest one. *)
Definition checkTrackedFiles (w : World) (metadata : Metadata)
    (latestCommit : Commit) : M Verdict :=
  let filePaths := trackedPaths metadata in
  hc <- (if (0 <? List.length filePaths)%nat
         then
           changes <- await (getFileChanges w (owner metadata) (repo metadata)
                               (commit metadata) (sha latestCommit) filePaths) ;;
           ret (match changes with
                | Some c => (0 <? relevantChanges c)%nat
                | None => false
                end, changes)
         else ret (true, None)) ;;
  let '(hasRelevantChanges, changes) := hc in
  if negb hasRelevantChanges then
    when (negb (onlyShowUpdates w)) (log UpToDateNoRelevantChanges) ;;
    ret VUpToDate
  else
    when (onlyShowUpdates w) (showUpdateHeader metadata latestCommit) ;;
    log UpdateAvailable ;;
    log (CompareLink (owner metadata) (repo metadata)
           (commit metadata) (sha latestCommit)) ;;
    modify incUpdatesAvailable ;;
    match changes with
    | Some c => when (detailedOutput w) (showDetails c)
    | None => ret tt
    end ;;
    log Blank ;;
    ret VUpdateAvailable.

(** Lines 93-207: one round of the loop over the metadata files.  The
    [catch] block runs when reading or parsing the file throws; the
    [continue] of line 119 and the [catch] block both leave the round
    before the delay of line 202. *)
Definition checkMetadataFile (w : World) (metadataFile : string) : M Verdict :=
  modify incTotalChecked ;;
  match readMetadata w metadataFile with
  | None =>
      logError (ErrorProcessing metadataFile) ;;
      modify incErrors ;;
      ret VError
  | Some metadata =>
      let shouldShowBasicInfo := negb (onlyShowUpdates w) in
      when shouldShowBasicInfo
        (log (Checking (name metadata) (owner metadata) (repo metadata)) ;;
         log (Repository (owner metadata) (repo metadata)) ;;
         log (CurrentCommit (commit metadata)) ;;
         log (PathLine (orElse (path metadata) "/"))) ;;
      latestCommit <- await (getLatestCommit w (owner metadata) (repo metadata)
                               (path metadata)) ;;
      match latestCommit with
      | value latestCommit =>
          when shouldShowBasicInfo
            (log (LatestCommit (sha latestCommit)) ;;
             log (LatestCommitDate (committer_date latestCommit)) ;;
             log (LatestCommitMessage (firstLine (message latestCommit)))) ;;
          verdict <- (if String.eqb (commit metadata) (sha latestCommit)
                      then
                        when (negb (onlyShowUpdates w)) (log UpToDate) ;;
                        ret VUpToDate
                      else checkTrackedFiles w metadata latestCommit) ;;
          emit (Delay 100) ;;
          ret verdict
      | null | undefined =>                      (* [!latestCommit] *)
          when shouldShowBasicInfo (log CouldNotFetch) ;;
          modify incErrors ;;
          ret VError
      end
  end.

(** How the promise returned by [main] settles, or that the process was
    ended from inside. *)
Inductive Completion : Type :=
| Resolved
| Rejected
| Exited (code : Z).

(** Lines 85-221, after the scan found [metadataFiles]. *)
Definition checkAll (w : World) (metadataFiles : list string)
    : M (Completion * list Verdict) :=
  log (Found (List.length metadataFiles)) ;;
  verdicts <- forEach metadataFiles (checkMetadataFile w) ;;
  c <- getCounters ;;
  log SummaryHeader ;;
  log (SummaryChecked (totalChecked c)) ;;
  log (SummaryUpdates (updatesAvailable c)) ;;
  log (SummaryErrors (errors c)) ;;
  log (SummaryUpToDate (totalChecked c - updatesAvailable c - errors c)) ;;
  if (0 <? updatesAvailable c)%Z then
    log (UpdatesExist (updatesAvailable c)) ;;
    emit (ProcessExit 0) ;;
    ret (Exited 0, verdicts)
  else
    log AllUpToDate ;;
    ret (Resolved, verdicts).

Definition zeroCounters : Counters :=
  {| totalChecked := 0; updatesAvailable := 0; errors := 0 |}.

(** [main()]: a throwing scan rejects the promise before the counters are
    declared. *)
Definition main (w : World) : Completion * list Verdict * Counters * list Event :=
  match findMetadataFiles "./repositories" (repositories w) with
  | None => (Rejected, [], zeroCounters, [Log Starting])
  | Some metadataFiles =>
      let '(r, c, e) := checkAll w metadataFiles zeroCounters in
      (fst r, snd r, c, Log Starting :: e)
  end.

(** [main().catch(console.error)]: the exit status of the process and
    everything it did.  A rejection is handled by printing the error, so
    that the process ends as after a resolved promise, with status 0;
    [process.exit(code)] ends it with [code]. *)
Definition script (w : World) : Z * list Event :=
  let '(completion, _, _, e) := main w in
  match completion with
  | Resolved => (0%Z, e)
  | Rejected => (0%Z, e ++ [LogError UncaughtError])
  | Exited code => (code, e)
  end.

End WithPath.

End CheckUpdates.

(* ===================================================================== *)
(** ** The generator of categories.json *)
(* ===================================================================== *)

Module GenerateCategories.

(** What the script reads of a parsed [releases/category-<slug>.json]. *)
Record CategoryData : Type := {
  category : string;
  data_count : Z      (* the [count] field, a number that holds an integer *)
}.

(** The objects pushed by [readCategoryFiles]. *)
Record Category : Type := {
  cat_name : string;
  cat_slug : string;
  cat_count : Z;
  cat_filePath : string
}.

(** The objects built by [main], the entries of the index. *)
Record CategoryWithTimestamp : Type := {
  name : string;
  slug : string;
  count : Z;
  lastUpdated : Z
}.

(** The content of [releases/categories.json]. *)
Record CategoriesData : Type := {
  totalCategories : nat;
  totalApps : Number;
  categories : list CategoryWithTimestamp
}.

(** Everything outside the script. *)
Record World : Type := {
  (** [fs.readdirSync(releasesDir)], or [None] when the directory does
      not exist *)
  releasesDir : option (list string);
  (** [JSON.parse(fs.readFileSync(filePath, 'utf8'))]; [None] when it
      throws *)
  readCategoryFile : string -> option CategoryData;
  (** the number returned by [getLastCommitTimestampForCategoryFile(slug)],
      which asks git and the clock and always returns one *)
  getLastCommitTimestampForCategoryFile : string -> Z;
  (** [fs.writeFileSync] of the index does not throw *)
  writable : bool
}.

(** *** readCategoryFiles *)

(** The callback given to [fs.readdirSync(releasesDir).filter]. *)
Definition isCategoryFile (file : string) : bool :=
  startsWith file "category-" && endsWith file ".json"
  && negb (String.eqb file "categories.json").

(** A file that cannot be read or parsed is skipped with a warning. *)
Fixpoint readEach (w : World) (categoryFiles : list string) : list Category :=
  match categoryFiles with
  | [] => []
  | categoryFile :: rest =>
      match readCategoryFile w categoryFile with
      | Some categoryData =>
          let categorySlug :=
            replaceFirst (replaceFirst categoryFile "category-" "") ".json" "" in
          {| cat_name := category categoryData;
             cat_slug := categorySlug;
             cat_count := data_count categoryData;
             cat_filePath := categoryFile |} :: readEach w rest
      | None => readEach w rest
      end
  end.

Definition readCategoryFiles (w : World) : list Category :=
  match releasesDir w with
  | None => []
  | Some files => readEach w (filter isCategoryFile files)
  end.

(** *** Array.prototype.sort *)

Section Sort.

Context {A : Type}.

(** The comparator: negative, zero or positive. *)
Variable compareFn : A -> A -> Z.

(** Insertion in front of the first element that is not smaller. *)
Fixpoint insert (x : A) (l : list A) : list A :=
  match l with
  | [] => [x]
  | y :: l' =>
      if (compareFn x y <=? 0)%Z then x :: l else y :: insert x l'
  end.

(** [array.sort(compareFn)] as a stable insertion sort: for a consistent
    comparator every stable sort gives this array. *)
Fixpoint sort (l : list A) : list A :=
  match l with
  | [] => []
  | x :: l' => insert x (sort l')
  end.

End Sort.

Section WithLocale.

(** [a.localeCompare(b)] (the collation of the host's locale, not part of
    the repository). *)
Variable localeCompare : string -> string -> Z.

(** *** main *)

(** Lines 193-209: the entries with their timestamps. *)
Definition withTimestamps (w : World) (cats : list Category)
    : list CategoryWithTimestamp :=
  map (fun c =>
         {| name := cat_name c;
            slug := cat_slug c;
            count := cat_count c;
            lastUpdated := getLastCommitTimestampForCategoryFile w (cat_slug c) |})
      cats.

(** Lines 211-219: sort by name and build the index. *)
Definition buildIndex (categoriesWithTimestamps : list CategoryWithTimestamp)
    : CategoriesData :=
  let sorted :=
    sort (fun a b => localeCompare (name a) (name b)) categoriesWithTimestamps in
  {| totalCategories := List.length sorted;
     totalApps :=
       fold_left (fun sum cat => jsAdd sum (Finite (count cat))) sorted (Finite 0);
     categories := sorted |}.

(** How a run ends: nothing is written when no category file was read;
    otherwise the index is written, or the write fails and the process
    exits with status 1. *)
Inductive Outcome : Type :=
| NoCategoryFiles
| Written (categoriesData : CategoriesData)
| WriteFailed (code : Z).

Definition main (w : World) : Outcome :=
  let cats := readCategoryFiles w in
  if (List.length cats =? 0)%nat then NoCategoryFiles
  else
    let categoriesData := buildIndex (withTimestamps w cats) in
    if writable w then Written categoriesData else WriteFailed 1.

End WithLocale.

End GenerateCategories.

(* ===================================================================== *)
(** ** Words for the statements *)
(* ===================================================================== *)

(** [t] occurs in [s]: some text before it and some text after it. *)
Definition Substring (t s : string) : Prop :=
  exists before after, s = (before ++ t ++ after)%string.

(** A path without one leading ['/'], as the specification words the
    normalisation of a tracked path. *)
Definition stripLeadingSlash (p : string) : string :=
  match p with
  | String "/" p' => p'
  | _ => p
  end.

Section RunVocabulary.

Import CheckUpdates.

(** *** What one round prints, by parts *)

(** Lines 100-105. *)
Definition basicInfo (w : World) (metadata : Metadata) : list Event :=
  if onlyShowUpdates w then []
  else [Log (Checking (name metadata) (owner metadata) (repo metadata));
        Log (Repository (owner metadata) (repo metadata));
        Log (CurrentCommit (commit metadata));
        Log (PathLine (orElse (path metadata) "/"))].

(** Lines 122-126. *)
Definition latestInfo (w : World) (latestCommit : Commit) : list Event :=
  if onlyShowUpdates w then []
  else [Log (LatestCommit (sha latestCommit));
        Log (LatestCommitDate (committer_date latestCommit));
        Log (LatestCommitMessage (firstLine (message latestCommit)))].

(** Lines 173-183. *)
Definition updateLines (w : World) (metadata : Metadata) (latestCommit : Commit)
    : list Event :=
  (if onlyShowUpdates w
   then [Log (Checking (name metadata) (owner metadata) (repo metadata));
         Log (Repository (owner metadata) (repo metadata));
         Log (CurrentCommit (commit metadata));
         Log (LatestCommit (sha latestCommit));
         Log (LatestCommitDate (committer_date latestCommit));
         Log (LatestCommitMessage (firstLine (message latestCommit)))]
   else [])
  ++ [Log UpdateAvailable;
      Log (CompareLink (owner metadata) (repo metadata)
             (commit metadata) (sha latestCommit))].

(** Lines 187-195. *)
Definition changeLines (changes : Changes) : list Event :=
  [Log (TotalRepositoryChanges (totalChanges changes));
   Log (RelevantFileChanges (relevantChanges changes))]
  ++ match changedFiles changes with
     | [] => []
     | fs => Log ChangedFilesHeader
             :: map (fun file => Log (ChangedFileLine file)) fs
     end.

(** Lines 186-196. *)
Definition detailLines (w : World) (changes : Changes) : list Event :=
  if detailedOutput w then changeLines changes else [].

(** A line that reports an up-to-date or an update-available verdict. *)
Definition isVerdictLine (e : Event) : bool :=
  match e with
  | Log UpToDate | Log UpToDateNoRelevantChanges | Log UpdateAvailable => true
  | _ => false
  end.

Definition isCompareCommitsRequest (e : Event) : bool :=
  match e with
  | CompareCommitsRequest _ _ _ _ => true
  | _ => false
  end.

Definition isDelay (e : Event) : bool :=
  match e with
  | Delay _ => true
  | _ => false
  end.

Definition sameVerdict (v v' : Verdict) : bool :=
  match v, v' with
  | VUpToDate, VUpToDate | VUpdateAvailable, VUpdateAvailable
  | VError, VError => true
  | _, _ => false
  end.

(** The number of rounds that ended with verdict [v]. *)
Definition countVerdict (v : Verdict) (vs : list Verdict) : Z :=
  Z.of_nat (List.length (filter (sameVerdict v) vs)).

End RunVocabulary.

(** The sum of the counts of the entries. *)
Fixpoint sumOfCounts (cats : list GenerateCategories.CategoryWithTimestamp) : Z :=
  match cats with
  | [] => 0
  | cat :: rest => GenerateCategories.count cat + sumOfCounts rest
  end.

(* ===================================================================== *)
(** ** Sample inputs *)
(* ===================================================================== *)

Module Sample.

Import CheckUpdates.

(** A stand-in for [path.join] on segments that need no normalising. *)
Definition joinPosix (a b : string) : string :=
  if endsWith a "/" then (a ++ b)%string else (a ++ "/" ++ b)%string.

Definition tracked : Metadata :=
  {| name := "Sample App";
     owner := "octo";
     repo := "apps";
     commit := "abc123";
     path := None;
     files := Some [FString "lib/x.js"] |}.

Definition untracked : Metadata :=
  {| name := "Sample App";
     owner := "octo";
     repo := "apps";
     commit := "abc123";
     path := None;
     files := None |}.

Definition recorded : Commit :=
  {| sha := "abc123";
     committer_date := "2025-01-01T00:00:00Z";
     message := "Add x" |}.

Definition newer : Commit :=
  {| sha := "def456";
     committer_date := "2025-02-01T00:00:00Z";
     message := "Update x" |}.

Definition changedX : DiffEntry :=
  {| diff_filename := "lib/x.js";
     diff_status := "modified";
     diff_additions := 2;
     diff_deletions := 1;
     diff_changes := 3;
     diff_blob_url := "https://github.com/octo/apps/blob/def456/lib/x.js";
     diff_patch := None |}.

Definition tree : Dir :=
  Listing [Directory "apps" (Listing [Other "metadata.json"; Other "README.md"])].

Definition metadataFile : string := "./repositories/apps/metadata.json".

(** A world in which every metadata file reads as [metadata], every
    [listCommits] answers [commits] and every [compareCommits] answers
    [comparison]. *)
Definition world (root : Dir) (metadata : option Metadata)
    (commits : option (list Commit)) (comparison : option (list DiffEntry))
    : World :=
  {| repositories := root;
     readMetadata := fun _ => metadata;
     listCommits := fun _ _ _ => commits;
     compareCommits := fun _ _ _ _ => comparison;
     detailedOutput := true;
     onlyShowUpdates := false |}.

Definition upToDateWorld : World :=
  world tree (Some tracked) (Some [recorded]) None.
Definition changedWorld : World :=
  world tree (Some tracked) (Some [newer]) (Some [changedX]).
Definition untrackedWorld : World :=
  world tree (Some untracked) (Some [newer]) None.
Definition rejectedWorld : World :=
  world tree (Some tracked) None None.
Definition noCommitsWorld : World :=
  world tree (Some tracked) (Some []) None.
Definition missingRootWorld : World :=
  world Unreadable None None None.

(** A comparator of strings by code units, consistent as [localeCompare]
    is. *)
Fixpoint compareCodeUnits (a b : string) : Z :=
  match a, b with
  | EmptyString, EmptyString => 0
  | EmptyString, String _ _ => -1
  | String _ _, EmptyString => 1
  | String c a', String d b' =>
      let difference := (Z.of_N (N_of_ascii c) - Z.of_N (N_of_ascii d))%Z in
      if (difference =? 0)%Z then compareCodeUnits a' b' else difference
  end.

Definition releases : GenerateCategories.World :=
  {| GenerateCategories.releasesDir :=
       Some ["category-games.json"; "categories.json"; "category-audio.json";
             "notes.txt"];
     GenerateCategories.readCategoryFile :=
       fun file =>
         if String.eqb file "category-games.json"
         then Some {| GenerateCategories.category := "Games";
                      GenerateCategories.data_count := 3 |}
         else if String.eqb file "category-audio.json"
         then Some {| GenerateCategories.category := "Audio";
                      GenerateCategories.data_count := 2 |}
         else None;
     GenerateCategories.getLastCommitTimestampForCategoryFile :=
       fun _ => 1750000000%Z;
     GenerateCategories.writable := true |}.

Definition index : GenerateCategories.CategoriesData :=
  {| GenerateCategories.totalCategories := 2;
     GenerateCategories.totalApps := Finite 5;
     GenerateCategories.categories :=
       [ {| GenerateCategories.name := "Audio";
            GenerateCategories.slug := "audio";
            GenerateCategories.count := 2;
            GenerateCategories.lastUpdated := 1750000000 |};
         {| GenerateCategories.name := "Games";
            GenerateCategories.slug := "games";
            GenerateCategories.count := 3;
            GenerateCategories.lastUpdated := 1750000000 |} ] |}.

End Sample.

(* ===================================================================== *)
(** ** The timestamp of a category file *)
(* ===================================================================== *)

(** [getLastCommitTimestampForCategoryFile] of the generator, whose value
    the field of the same name in [GenerateCategories.World] stands for.
    The function only reads: its printing, and the [git status],
    [git rev-parse] and [git fetch --unshallow] commands whose results it
    does not use (and whose failures it catches), are left out. *)

Module CategoryTimestamp.

(** What the function asks of its surroundings. *)
Record Host : Type := {
  (** [execSync(command, {...}).trim()] for a [git log] command, or [None]
      when [execSync] throws *)
  execSync : string -> option string;
  (** [fs.existsSync] of the file at this path under the working
      directory, at line 102 *)
  existsSync : string -> bool;
  (** [Math.floor(Date.now() / 1000)] where it is read: [i] for the
      reading of line 85 in round [i] of the loop (from 0), [4] for the
      reading of line 125.  [Date.now()] is a valid time, so that the
      lines printing these readings do not throw. *)
  now : nat -> Z
}.

(** The double quote. *)
Definition quote : string := String "034"%char EmptyString.

(** Line 12. *)
Definition categoryFilePath (categorySlug : string) : string :=
  ("releases/category-" ++ categorySlug ++ ".json")%string.

(** Lines 60-65. *)
Definition gitCommands (categoryFilePath : string) : list string :=
  [ ("git log -1 --format=%ct --follow -- " ++ quote ++ categoryFilePath ++ quote)%string;
    ("git log -1 --format=%ct -- " ++ quote ++ categoryFilePath ++ quote)%string;
    ("git log -1 --format=%ct --all -- " ++ quote ++ categoryFilePath ++ quote)%string;
    ("git log --format=%ct -n 1 -- " ++ quote ++ categoryFilePath ++ quote)%string ].

(** Line 105. *)
Definition dirCommand : string := "git log -1 --format=%ct -- releases/".

(** [new Date(timestamp * 1000)] is a valid date, so that its
    [toISOString()] does not throw a [RangeError]: at most 8.64e15 ms from
    the epoch. *)
Definition validDate (timestamp : Z) : bool :=
  (Z.abs (timestamp * 1000) <=? 8640000000000000)%Z.

Section WithParseInt.

(** [parseInt(string)]; [None] is [NaN]. *)
Variable parseInt : string -> option Z.

(** Lines 71-98: one round of the loop over the commands.  [None] when the
    loop goes on: the command throws, prints nothing, or prints what is
    not a date (printing it at line 82 throws, which is caught at line 96),
    or a date that fails the sanity check. *)
Definition tryCommand (h : Host) (i : nat) (gitCommand : string) : option Z :=
  match execSync h gitCommand with
  | Some result =>
      if String.eqb result "" then None
      else
        match parseInt result with
        | Some timestamp =>
            if validDate timestamp then
              let now := now h i in
              let oneYearAgo := (now - 365 * 24 * 60 * 60)%Z in
              let oneHourFromNow := (now + 60 * 60)%Z in
              if (oneYearAgo <=? timestamp)%Z && (timestamp <=? oneHourFromNow)%Z
              then Some timestamp
              else None
            else None
        | None => None
        end
  | None => None
  end.

(** Lines 67-99: the loop, from round [i]; the first accepted timestamp is
    returned. *)
Fixpoint tryCommands (h : Host) (i : nat) (commands : list string) : option Z :=
  match commands with
  | [] => None
  | gitCommand :: rest =>
      match tryCommand h i gitCommand with
      | Some timestamp => Some timestamp
      | None => tryCommands h (S i) rest
      end
  end.

(** Lines 102-122: the last commit of the [releases] directory, when the
    category file exists.  Its timestamp is returned without a sanity
    check; printing what is not a date throws, which is caught. *)
Definition tryDirectory (h : Host) (categoryFilePath : string) : option Z :=
  if existsSync h categoryFilePath then
    match execSync h dirCommand with
    | Some dirResult =>
        if String.eqb dirResult "" then None
        else
          match parseInt dirResult with
          | Some timestamp => if validDate timestamp then Some timestamp else None
          | None => None
          end
    | None => None
    end
  else None.

Definition getLastCommitTimestampForCategoryFile (h : Host)
    (categorySlug : string) : Z :=
  let categoryFilePath := categoryFilePath categorySlug in
  match tryCommands h 0 (gitCommands categoryFilePath) with
  | Some timestamp => timestamp
  | None =>
      match tryDirectory h categoryFilePath with
      | Some timestamp => timestamp
      | None => now h 4                      (* the fallback of line 125 *)
      end
  end.

End WithParseInt.

End CategoryTimestamp.

(* ===================================================================== *)
(** ** More words for the statements *)
(* ===================================================================== *)

Section ScanVocabulary.

Import CheckUpdates.

(** Every directory of the tree can be listed. *)
Fixpoint allReadable (d : Dir) : bool :=
  match d with
  | Unreadable => false
  | Listing entries =>
      (fix all (es : list Dirent) : bool :=
         match es with
         | [] => true
         | Directory _ contents :: rest => allReadable contents && all rest
         | Other _ :: rest => all rest
         end) entries
  end.

(** The number of entries of the tree that are not directories and are
    named [metadata.json]. *)
Fixpoint countMetadata (d : Dir) : nat :=
  match d with
  | Unreadable => 0
  | Listing entries =>
      (fix count (es : list Dirent) : nat :=
         match es with
         | [] => 0
         | Directory _ contents :: rest => countMetadata contents + count rest
         | Other entry_name :: rest =>
             (if String.eqb entry_name "metadata.json" then 1 else 0) + count rest
         end) entries
  end.

Definition isLog (e : Event) : bool :=
  match e with
  | Log _ => true
  | _ => false
  end.

Definition isListCommitsRequest (e : Event) : bool :=
  match e with
  | ListCommitsRequest _ _ _ _ => true
  | _ => false
  end.

(** A verdict other than the error. *)
Definition notError (v : Verdict) : bool := negb (sameVerdict VError v).

(** What was done besides [console.log]: the requests, the delays, the
    [console.error] lines and [process.exit]. *)
Definition actions (es : list Event) : list Event :=
  filter (fun e => negb (isLog e)) es.

Variable path_join : string -> string -> string.

(** [HoldsMetadata dir d parent]: in the tree [d], whose root has the path
    [dir], [parent] is the path of a directory (the root, or a directory
    reached by joining the names on the way down) that has an entry named
    [metadata.json] which is not a directory. *)
Inductive HoldsMetadata : string -> Dir -> string -> Prop :=
| holds_here (dir : string) (entries : list Dirent) :
    In (Other "metadata.json") entries ->
    HoldsMetadata dir (Listing entries) dir
| holds_below (dir entry_name parent : string) (contents : Dir)
    (entries : list Dirent) :
    In (Directory entry_name contents) entries ->
    HoldsMetadata (path_join dir entry_name) contents parent ->
    HoldsMetadata dir (Listing entries) parent.

(** The verdict of a round as the answers of the world decide it. *)
Definition roundVerdict (w : World) (metadataFile : string) : Verdict :=
  match readMetadata w metadataFile with
  | None => VError
  | Some metadata =>
      match fst (getLatestCommit w (owner metadata) (repo metadata)
                   (path metadata)) with
      | value latestCommit =>
          if String.eqb (commit metadata) (sha latestCommit) then VUpToDate
          else
            match trackedPaths path_join metadata with
            | [] => VUpdateAvailable
            | filePaths =>
                match fst (getFileChanges w (owner metadata) (repo metadata)
                             (commit metadata) (sha latestCommit) filePaths) with
                | Some changes =>
                    if (0 <? relevantChanges changes)%nat
                    then VUpdateAvailable else VUpToDate
                | None => VUpToDate
                end
            end
      | _ => VError
      end
  end.

(** The actions of a round as the answers of the world decide them. *)
Definition roundActions (w : World) (metadataFile : string) : list Event :=
  match readMetadata w metadataFile with
  | None => [LogError (ErrorProcessing metadataFile)]
  | Some metadata =>
      let fetch :=
        getLatestCommit w (owner metadata) (repo metadata) (path metadata) in
      snd fetch
      ++ match fst fetch with
         | value latestCommit =>
             (if String.eqb (commit metadata) (sha latestCommit) then []
              else
                match trackedPaths path_join metadata with
                | [] => []
                | filePaths =>
                    snd (getFileChanges w (owner metadata) (repo metadata)
                           (commit metadata) (sha latestCommit) filePaths)
                end)
             ++ [Delay 100]
         | _ => []
         end
  end.

End ScanVocabulary.

(** The sum of the counts of the categories read. *)
Fixpoint sumOfRead (cats : list GenerateCategories.Category) : Z :=
  match cats with
  | [] => 0
  | cat :: rest => GenerateCategories.cat_count cat + sumOfRead rest
  end.

(** The sum of the magnitudes of the counts: no partial sum of the counts,
    in whatever order, is larger in magnitude. *)
Fixpoint sumOfMagnitudes (cats : list GenerateCategories.CategoryWithTimestamp)
    : Z :=
  match cats with
  | [] => 0
  | cat :: rest => Z.abs (GenerateCategories.count cat) + sumOfMagnitudes rest
  end.

Fixpoint sumOfMagnitudesRead (cats : list GenerateCategories.Category) : Z :=
  match cats with
  | [] => 0
  | cat :: rest => Z.abs (GenerateCategories.cat_count cat) + sumOfMagnitudesRead rest
  end.

(** One year and one hour, in seconds. *)
Definition oneYear : Z := 31536000.
Definition oneHour : Z := 3600.

(* ===================================================================== *)
(** ** More sample inputs *)
(* ===================================================================== *)

Module MoreSamples.

(** The world [w] with [ONLY_SHOW_UPDATES] set and [DETAILED_OUTPUT]
    unset. *)
Definition quiet (w : CheckUpdates.World) : CheckUpdates.World :=
  {| CheckUpdates.repositories := CheckUpdates.repositories w;
     CheckUpdates.readMetadata := CheckUpdates.readMetadata w;
     CheckUpdates.listCommits := CheckUpdates.listCommits w;
     CheckUpdates.compareCommits := CheckUpdates.compareCommits w;
     CheckUpdates.detailedOutput := false;
     CheckUpdates.onlyShowUpdates := true |}.

Definition games : GenerateCategories.CategoryData :=
  {| GenerateCategories.category := "Games";
     GenerateCategories.data_count := 3 |}.

Definition audioEntry : GenerateCategories.CategoryWithTimestamp :=
  {| GenerateCategories.name := "Audio";
     GenerateCategories.slug := "audio";
     GenerateCategories.count := 2;
     GenerateCategories.lastUpdated := 1750000000 |}.

(** [path.join] for the segments of the sample tree: as [joinPosix], and
    a leading [./] is normalised away. *)
Definition joinNode (a b : string) : string :=
  let joined := Sample.joinPosix a b in
  if startsWith joined "./" then sliceFrom 2 joined else joined.



(** A host on which every [git] command throws. *)
Definition withoutGit : CategoryTimestamp.Host :=
  {| CategoryTimestamp.execSync := fun _ => None;
     CategoryTimestamp.existsSync := fun _ => true;
     CategoryTimestamp.now := fun _ => 1750000000%Z |}.

End MoreSamples.

(* ===================================================================== *)
(** ** Properties of the string methods *)
(* ===================================================================== *)

Lemma startsWith_spec (s p : string) :
  startsWith s p = true <-> exists rest, s = (p ++ rest)%string.
Proof.
  revert s; induction p as [|c p IH]; intros s; simpl.
  - split; [intros _; now exists s | trivial].
  - destruct s as [|d s].
    + split; [discriminate | intros [rest H]; discriminate].
    + rewrite andb_true_iff, Ascii.eqb_eq, IH. split.
      * intros [-> [rest ->]]. now exists rest.
      * intros [rest H]. injection H as -> ->. split; [reflexivity | now exists rest].
Qed.

Lemma includes_spec (s t : string) :
  includes s t = true <-> Substring t s.
Proof.
  unfold Substring. induction s as [|c s IH]; simpl.
  - rewrite orb_false_r, startsWith_spec. split.
    + intros [rest H]. now exists "", rest.
    + intros [before [after H]]. destruct before; simpl in H.
      * now exists after.
      * discriminate.
  - rewrite orb_true_iff, startsWith_spec, IH. split.
    + intros [[rest H] | [before [after H]]].
      * now exists "", rest.
      * exists (String c before), after. simpl. now rewrite H.
    + intros [before [after H]]. destruct before as [|d before]; simpl in H.
      * left. now exists after.
      * right. injection H as _ H. now exists before, after.
Qed.

Lemma normalizedTrackPath_spec (trackPath : string) :
  (if startsWith trackPath "/" then slice1 trackPath else trackPath)
  = stripLeadingSlash trackPath.
Proof.
  destruct trackPath as [|c p]; [reflexivity|].
  destruct c as [[] [] [] [] [] [] [] []]; reflexivity.
Qed.

(* ===================================================================== *)
(** ** Properties of the update checker *)
(* ===================================================================== *)

Section CheckUpdatesProperties.

Import CheckUpdates.

Variable path_join : string -> string -> string.

Ltac run :=
  unfold checkMetadataFile, checkTrackedFiles, showUpdateHeader, showDetails,
    bind, ret, when, log, logError, emit, modify, await, getCounters; simpl.

(** *** The loops *)

Lemma forEach_cons {A B} (body : A -> M B) (x : A) (xs : list A) (c : Counters) :
  forEach (x :: xs) body c
  = (result (body x c) :: result (forEach xs body (counters (body x c))),
     counters (forEach xs body (counters (body x c))),
     events (body x c) ++ events (forEach xs body (counters (body x c)))).
Proof.
  simpl. unfold bind, ret, result, counters, events.
  destruct (body x c) as [[b c1] e1]; simpl.
  destruct (forEach xs body c1) as [[bs c2] e2]; simpl.
  now rewrite app_nil_r.
Qed.

Lemma forEach_log {A} (body : A -> M unit) (line : A -> Line) (xs : list A)
    (c : Counters) :
  (forall x c', body x c' = (tt, c', [Log (line x)])) ->
  forEach xs body c
  = (map (fun _ => tt) xs, c, map (fun x => Log (line x)) xs).
Proof.
  intros Hbody. revert c.
  induction xs as [|x xs IH]; intros c; [reflexivity|].
  rewrite forEach_cons, !IH, !Hbody. reflexivity.
Qed.

Lemma showDetails_run (changes : Changes) (c : Counters) :
  showDetails changes c = (tt, c, changeLines changes).
Proof.
  unfold showDetails, changeLines.
  destruct (changedFiles changes) as [|f fs];
    cbv beta iota zeta delta
      [bind when ret emit log List.length Nat.ltb Nat.leb];
    [reflexivity|].
  rewrite (forEach_log _ ChangedFileLine) by reflexivity.
  now rewrite app_nil_r.
Qed.

(** *** The two requests *)

Lemma getLatestCommit_cases (w : World) (o r : string) (p : option string) :
  match listCommits w o r (orEmpty p) with
  | None =>
      getLatestCommit w o r p
      = (null, [ListCommitsRequest o r (orEmpty p) 1;
                LogError (ErrorFetchingCommits o r)])
  | Some [] =>
      getLatestCommit w o r p = (undefined, [ListCommitsRequest o r (orEmpty p) 1])
  | Some (latest :: _) =>
      getLatestCommit w o r p = (value latest, [ListCommitsRequest o r (orEmpty p) 1])
  end.
Proof.
  unfold getLatestCommit.
  destruct (listCommits w o r (orEmpty p)) as [[|latest more]|]; reflexivity.
Qed.

Lemma getLatestCommit_no_compare (w : World) (o r : string) (p : option string) :
  existsb isCompareCommitsRequest (snd (getLatestCommit w o r p)) = false.
Proof.
  unfold getLatestCommit.
  destruct (listCommits w o r (orEmpty p)) as [[|latest more]|]; reflexivity.
Qed.

Lemma getLatestCommit_no_delay (w : World) (o r : string) (p : option string) :
  existsb isDelay (snd (getLatestCommit w o r p)) = false.
Proof.
  unfold getLatestCommit.
  destruct (listCommits w o r (orEmpty p)) as [[|latest more]|]; reflexivity.
Qed.

Lemma getFileChanges_no_delay (w : World) (o r b h : string) (ps : list string) :
  existsb isDelay (snd (getFileChanges w o r b h ps)) = false.
Proof.
  unfold getFileChanges.
  destruct (compareCommits w o r b h); reflexivity.
Qed.

(** *** One round, branch by branch *)

(** The file cannot be read or parsed: the [catch] block. *)
Lemma checkMetadataFile_unreadable (w : World) (metadataFile : string)
    (c : Counters) :
  readMetadata w metadataFile = None ->
  checkMetadataFile path_join w metadataFile c
  = (VError, incErrors (incTotalChecked c),
     [LogError (ErrorProcessing metadataFile)]).
Proof.
  intros Hread. unfold checkMetadataFile. rewrite Hread. reflexivity.
Qed.

(** No latest commit: the [continue]. *)
Lemma checkMetadataFile_no_latest (w : World) (metadataFile : string)
    (metadata : Metadata) (c : Counters) :
  readMetadata w metadataFile = Some metadata ->
  (forall latest,
      fst (getLatestCommit w (owner metadata) (repo metadata) (path metadata))
      <> value latest) ->
  checkMetadataFile path_join w metadataFile c
  = (VError, incErrors (incTotalChecked c),
     basicInfo w metadata
     ++ snd (getLatestCommit w (owner metadata) (repo metadata) (path metadata))
     ++ (if onlyShowUpdates w then [] else [Log CouldNotFetch])).
Proof.
  intros Hread Hlatest. unfold checkMetadataFile, basicInfo. rewrite Hread.
  destruct (getLatestCommit w (owner metadata) (repo metadata) (path metadata))
    as [[| |latest] evs]; simpl in Hlatest;
    [| |now elim (Hlatest latest)];
    run; destruct (onlyShowUpdates w); simpl;
    now rewrite ?app_nil_r.
Qed.

(** The recorded commit is the latest one. *)
Lemma checkMetadataFile_same_commit (w : World) (metadataFile : string)
    (metadata : Metadata) (latestCommit : Commit) (c : Counters) :
  readMetadata w metadataFile = Some metadata ->
  fst (getLatestCommit w (owner metadata) (repo metadata) (path metadata))
    = value latestCommit ->
  commit metadata = sha latestCommit ->
  checkMetadataFile path_join w metadataFile c
  = (VUpToDate, incTotalChecked c,
     basicInfo w metadata
     ++ snd (getLatestCommit w (owner metadata) (repo metadata) (path metadata))
     ++ latestInfo w latestCommit
     ++ (if onlyShowUpdates w then [] else [Log UpToDate])
     ++ [Delay 100]).
Proof.
  intros Hread Hlatest Heq. unfold checkMetadataFile, basicInfo, latestInfo.
  rewrite Hread.
  destruct (getLatestCommit w (owner metadata) (repo metadata) (path metadata))
    as [latest evs]; simpl in Hlatest; subst latest.
  run. rewrite Heq, String.eqb_refl.
  destruct (onlyShowUpdates w); simpl; now rewrite ?app_nil_r.
Qed.

(** The recorded commit is not the latest one: the tracked files decide,
    and the delay follows. *)
Lemma checkMetadataFile_other_commit (w : World) (metadataFile : string)
    (metadata : Metadata) (latestCommit : Commit) (c : Counters) :
  readMetadata w metadataFile = Some metadata ->
  fst (getLatestCommit w (owner metadata) (repo metadata) (path metadata))
    = value latestCommit ->
  commit metadata <> sha latestCommit ->
  let r := checkTrackedFiles path_join w metadata latestCommit (incTotalChecked c) in
  checkMetadataFile path_join w metadataFile c
  = (result r, counters r,
     basicInfo w metadata
     ++ snd (getLatestCommit w (owner metadata) (repo metadata) (path metadata))
     ++ latestInfo w latestCommit
     ++ events r
     ++ [Delay 100]).
Proof.
  intros Hread Hlatest Hne r. subst r.
  unfold checkMetadataFile, basicInfo, latestInfo. rewrite Hread.
  destruct (getLatestCommit w (owner metadata) (repo metadata) (path metadata))
    as [latest evs]; simpl in Hlatest; subst latest.
  apply String.eqb_neq in Hne.
  destruct (onlyShowUpdates w);
    cbv beta iota zeta delta
      [bind when ret modify await emit log negb fst snd result counters events];
    rewrite Hne;
    destruct (checkTrackedFiles path_join w metadata latestCommit (incTotalChecked c))
      as [[v c'] e'];
    simpl; now rewrite ?app_nil_r.
Qed.

(** Nothing is tracked: any new commit is an update, and no comparison
    is requested. *)
Lemma checkTrackedFiles_untracked (w : World) (metadata : Metadata)
    (latestCommit : Commit) (c : Counters) :
  trackedPaths path_join metadata = [] ->
  checkTrackedFiles path_join w metadata latestCommit c
  = (VUpdateAvailable, incUpdatesAvailable c,
     updateLines w metadata latestCommit ++ [Log Blank]).
Proof.
  intros Hnone. unfold checkTrackedFiles, updateLines. rewrite Hnone.
  run. destruct (onlyShowUpdates w); reflexivity.
Qed.

(** Some paths are tracked: the comparison decides. *)
Lemma checkTrackedFiles_tracked (w : World) (metadata : Metadata)
    (latestCommit : Commit) (c : Counters) :
  trackedPaths path_join metadata <> [] ->
  let comparison :=
    getFileChanges w (owner metadata) (repo metadata) (commit metadata)
      (sha latestCommit) (trackedPaths path_join metadata) in
  let noUpdate :=
    (VUpToDate, c,
     snd comparison
     ++ (if onlyShowUpdates w then [] else [Log UpToDateNoRelevantChanges])) in
  checkTrackedFiles path_join w metadata latestCommit c
  = match fst comparison with
    | None => noUpdate
    | Some changes =>
        match relevantChanges changes with
        | O => noUpdate
        | S _ =>
            (VUpdateAvailable, incUpdatesAvailable c,
             snd comparison
             ++ updateLines w metadata latestCommit
             ++ detailLines w changes
             ++ [Log Blank])
        end
    end.
Proof.
  intros Hsome comparison noUpdate. subst noUpdate comparison.
  unfold checkTrackedFiles, updateLines, detailLines.
  destruct (trackedPaths path_join metadata) as [|p ps]; [now elim Hsome|].
  destruct (getFileChanges w (owner metadata) (repo metadata) (commit metadata)
              (sha latestCommit) (p :: ps)) as [[changes|] evs].
  - destruct changes as [total relevant fs]; destruct relevant as [|n].
    + run. destruct (onlyShowUpdates w); simpl; now rewrite ?app_nil_r.
    + destruct (onlyShowUpdates w), (detailedOutput w);
        cbv beta iota zeta delta
          [bind when ret modify await emit log negb fst snd
           List.length Nat.ltb Nat.leb showUpdateHeader relevantChanges];
        rewrite ?showDetails_run; simpl; rewrite ?app_nil_r; reflexivity.
  - run. destruct (onlyShowUpdates w); simpl; now rewrite ?app_nil_r.
Qed.

(** *** Events of a kind *)

Lemma existsb_none_In {A} (p : A -> bool) (xs : list A) (x : A) :
  existsb p xs = false -> p x = true -> ~ In x xs.
Proof.
  intros Hnone Hp Hin.
  assert (existsb p xs = true) by (apply existsb_exists; now exists x).
  congruence.
Qed.

(** A predicate that holds of no printed line holds of no event of the
    blocks of lines above. *)
Section LinesOnly.

Variable p : Event -> bool.
Hypothesis p_Log : forall l, p (Log l) = false.

Lemma basicInfo_lines (w : World) (metadata : Metadata) :
  existsb p (basicInfo w metadata) = false.
Proof. unfold basicInfo. destruct (onlyShowUpdates w); simpl; now rewrite ?p_Log. Qed.

Lemma latestInfo_lines (w : World) (latestCommit : Commit) :
  existsb p (latestInfo w latestCommit) = false.
Proof. unfold latestInfo. destruct (onlyShowUpdates w); simpl; now rewrite ?p_Log. Qed.

Lemma updateLines_lines (w : World) (metadata : Metadata) (latestCommit : Commit) :
  existsb p (updateLines w metadata latestCommit) = false.
Proof. unfold updateLines. destruct (onlyShowUpdates w); simpl; now rewrite ?p_Log. Qed.

Lemma detailLines_lines (w : World) (changes : Changes) :
  existsb p (detailLines w changes) = false.
Proof.
  unfold detailLines, changeLines.
  destruct (detailedOutput w); [|reflexivity].
  assert (Hmap : forall fs : list ChangedFile,
             existsb p (map (fun file => Log (ChangedFileLine file)) fs) = false).
  { induction fs as [|x fs IH]; simpl; [reflexivity|now rewrite p_Log]. }
  rewrite existsb_app. simpl. rewrite !p_Log. simpl.
  destruct (changedFiles changes) as [|f fs]; [reflexivity|].
  change (existsb p (Log ChangedFilesHeader
                     :: map (fun file => Log (ChangedFileLine file)) (f :: fs))
          = false).
  simpl. now rewrite !p_Log, Hmap.
Qed.

End LinesOnly.

Lemma isDelay_Log (l : Line) : isDelay (Log l) = false.
Proof. reflexivity. Qed.

Lemma isCompareCommitsRequest_Log (l : Line) : isCompareCommitsRequest (Log l) = false.
Proof. reflexivity. Qed.

(** A comparison of the tracked files never ends in an error verdict, and
    never waits. *)
Lemma checkTrackedFiles_round (w : World) (metadata : Metadata)
    (latestCommit : Commit) (c : Counters) :
  let r := checkTrackedFiles path_join w metadata latestCommit c in
  existsb isDelay (events r) = false
  /\ match result r with
     | VUpToDate => counters r = c
     | VUpdateAvailable => counters r = incUpdatesAvailable c
     | VError => False
     end.
Proof.
  intros r. subst r.
  destruct (trackedPaths path_join metadata) as [|p ps] eqn:Hpaths.
  - rewrite checkTrackedFiles_untracked by assumption.
    unfold result, counters, events; simpl. split; [|reflexivity].
    rewrite existsb_app, updateLines_lines by apply isDelay_Log. reflexivity.
  - assert (Hsome : trackedPaths path_join metadata <> []) by congruence.
    rewrite (checkTrackedFiles_tracked w metadata latestCommit c Hsome).
    rewrite Hpaths.
    pose proof (getFileChanges_no_delay w (owner metadata) (repo metadata)
                  (commit metadata) (sha latestCommit) (p :: ps)) as Hquiet.
    destruct (getFileChanges w (owner metadata) (repo metadata) (commit metadata)
                (sha latestCommit) (p :: ps)) as [[changes|] evs];
      simpl in Hquiet |- *.
    + destruct (relevantChanges changes); unfold result, counters, events; simpl;
        (split; [|reflexivity]);
        rewrite ?existsb_app, ?updateLines_lines, ?detailLines_lines, Hquiet
          by apply isDelay_Log;
        now destruct (onlyShowUpdates w).
    + unfold result, counters, events; simpl. split; [|reflexivity].
      rewrite existsb_app, Hquiet. now destruct (onlyShowUpdates w).
Qed.

(** Every round: what the verdict says about the counters and the delay. *)
Lemma checkMetadataFile_round (w : World) (metadataFile : string) (c : Counters) :
  let r := checkMetadataFile path_join w metadataFile c in
  match result r with
  | VUpToDate =>
      counters r = incTotalChecked c
      /\ exists before, events r = before ++ [Delay 100]
                        /\ existsb isDelay before = false
  | VUpdateAvailable =>
      counters r = incUpdatesAvailable (incTotalChecked c)
      /\ exists before, events r = before ++ [Delay 100]
                        /\ existsb isDelay before = false
  | VError =>
      counters r = incErrors (incTotalChecked c)
      /\ existsb isDelay (events r) = false
  end.
Proof.
  intros r. subst r.
  destruct (readMetadata w metadataFile) as [metadata|] eqn:Hread.
  2: { rewrite checkMetadataFile_unreadable by assumption. now split. }
  pose proof (getLatestCommit_no_delay w (owner metadata) (repo metadata)
                (path metadata)) as Hquiet.
  destruct (fst (getLatestCommit w (owner metadata) (repo metadata) (path metadata)))
    as [| |latestCommit] eqn:Hlatest.
  1, 2: rewrite (checkMetadataFile_no_latest w metadataFile metadata c Hread)
          by (intros latest; congruence);
        unfold result, counters, events; simpl; split; [reflexivity|];
        rewrite !existsb_app, basicInfo_lines, Hquiet by apply isDelay_Log;
        now destruct (onlyShowUpdates w).
  destruct (String.eqb_spec (commit metadata) (sha latestCommit)) as [Heq|Hne].
  - rewrite (checkMetadataFile_same_commit w metadataFile metadata latestCommit c
               Hread Hlatest Heq).
    unfold result, counters, events; simpl. split; [reflexivity|].
    eexists. rewrite !app_assoc. split; [reflexivity|].
    rewrite !existsb_app, basicInfo_lines, latestInfo_lines, Hquiet
      by apply isDelay_Log.
    now destruct (onlyShowUpdates w).
  - rewrite (checkMetadataFile_other_commit w metadataFile metadata latestCommit c
               Hread Hlatest Hne).
    destruct (checkTrackedFiles_round w metadata latestCommit (incTotalChecked c))
      as [Hnowait Hcount].
    destruct (checkTrackedFiles path_join w metadata latestCommit (incTotalChecked c))
      as [[v c'] e'].
    unfold result, counters, events in *; simpl in *.
    destruct v; [| |contradiction];
      (split; [assumption|]);
      eexists; rewrite !app_assoc; (split; [reflexivity|]);
      rewrite !existsb_app, basicInfo_lines, latestInfo_lines, Hquiet, Hnowait
        by apply isDelay_Log; reflexivity.
Qed.

Lemma no_compare_request (es : list Event) :
  existsb isCompareCommitsRequest es = false ->
  forall o r b h, ~ In (CompareCommitsRequest o r b h) es.
Proof.
  intros Hnone o r b h. now apply (existsb_none_In isCompareCommitsRequest).
Qed.

Lemma trackedPaths_omitted (metadata : Metadata) :
  files metadata = None -> trackedPaths path_join metadata = [].
Proof. intros Hnone. unfold trackedPaths. now rewrite Hnone. Qed.

(** *** The verdicts *)

(** C1. With tracked paths and a latest commit other than the recorded one,
    the round ends with an available update exactly when [getFileChanges]
    answers with at least one relevant change: it then counts an update
    and prints the update lines (with the files found, when details are
    asked for).  When [getFileChanges] answers [null], or with no relevant
    change, the round ends up to date: it counts no update and prints at
    most that no relevant file changed.  Either way the comparison was
    requested and the delay follows. *)
Theorem tracked_verdict_follows_relevant_changes
    (w : World) (metadataFile : string) (metadata : Metadata)
    (latestCommit : Commit) (c : Counters) :
  readMetadata w metadataFile = Some metadata ->
  fst (getLatestCommit w (owner metadata) (repo metadata) (path metadata))
    = value latestCommit ->
  commit metadata <> sha latestCommit ->
  trackedPaths path_join metadata <> [] ->
  let comparison :=
    getFileChanges w (owner metadata) (repo metadata) (commit metadata)
      (sha latestCommit) (trackedPaths path_join metadata) in
  let changes := fst comparison in
  let r := checkMetadataFile path_join w metadataFile c in
  let verdict := result r in
  let before :=
    basicInfo w metadata
    ++ snd (getLatestCommit w (owner metadata) (repo metadata) (path metadata))
    ++ latestInfo w latestCommit
    ++ snd comparison in
  (verdict = VUpdateAvailable
   <-> exists found, changes = Some found /\ (1 <= relevantChanges found)%nat)
  /\ (changes = None
      \/ (exists found, changes = Some found /\ relevantChanges found = 0%nat)
      -> verdict = VUpToDate)
  /\ (forall found,
         changes = Some found -> (1 <= relevantChanges found)%nat ->
         counters r = incUpdatesAvailable (incTotalChecked c)
         /\ events r
            = before
              ++ updateLines w metadata latestCommit
              ++ detailLines w found
              ++ [Log Blank; Delay 100])
  /\ (changes = None
      \/ (exists found, changes = Some found /\ relevantChanges found = 0%nat)
      -> counters r = incTotalChecked c
         /\ events r
            = before
              ++ (if onlyShowUpdates w then [] else [Log UpToDateNoRelevantChanges])
              ++ [Delay 100]).
Proof.
  intros Hread Hlatest Hne Hsome comparison changes r verdict before.
  subst before verdict r changes comparison.
  rewrite (checkMetadataFile_other_commit w metadataFile metadata latestCommit c
             Hread Hlatest Hne).
  rewrite (checkTrackedFiles_tracked w metadata latestCommit _ Hsome).
  destruct (getFileChanges w (owner metadata) (repo metadata) (commit metadata)
              (sha latestCommit) (trackedPaths path_join metadata))
    as [[found|] evs]; cbn [fst snd].
  - destruct (relevantChanges found) as [|n] eqn:Hcount;
      unfold result, counters, events; cbn [fst snd].
    + split; [|split; [|split]].
      * split; [discriminate|]. intros [found' [Hfound Hpos]].
        injection Hfound as <-. lia.
      * reflexivity.
      * intros found' Hfound Hpos. injection Hfound as <-. lia.
      * intros _. split; [reflexivity|]. now rewrite <- !app_assoc.
    + split; [|split; [|split]].
      * split; [|reflexivity]. intros _. exists found. split; [reflexivity|lia].
      * intros [Hnull | [found' [Hfound Hzero]]]; [discriminate|].
        injection Hfound as <-. congruence.
      * intros found' Hfound _. injection Hfound as <-.
        split; [reflexivity|]. now rewrite <- !app_assoc.
      * intros [Hnull | [found' [Hfound Hzero]]]; [discriminate|].
        injection Hfound as <-. congruence.
  - unfold result, counters, events; cbn [fst snd]. split; [|split; [|split]].
    + split; [discriminate|]. intros [found [Hfound _]]. discriminate.
    + reflexivity.
    + intros found Hfound. discriminate.
    + intros _. split; [reflexivity|]. now rewrite <- !app_assoc.
Qed.

(** C2. When the recorded commit is the latest commit, the round ends up to
    date, counts neither an update nor an error, and requests no
    comparison. *)
Theorem same_commit_is_up_to_date_without_comparison
    (w : World) (metadataFile : string) (metadata : Metadata)
    (latestCommit : Commit) (c : Counters) :
  readMetadata w metadataFile = Some metadata ->
  fst (getLatestCommit w (owner metadata) (repo metadata) (path metadata))
    = value latestCommit ->
  commit metadata = sha latestCommit ->
  let r := checkMetadataFile path_join w metadataFile c in
  result r = VUpToDate
  /\ counters r = incTotalChecked c
  /\ forall o r' base head,
       ~ In (CompareCommitsRequest o r' base head) (events r).
Proof.
  intros Hread Hlatest Heq r. subst r.
  rewrite (checkMetadataFile_same_commit w metadataFile metadata latestCommit c
             Hread Hlatest Heq).
  unfold result, counters, events; simpl.
  split; [reflexivity|]. split; [reflexivity|].
  apply no_compare_request.
  rewrite !existsb_app, basicInfo_lines, latestInfo_lines,
    getLatestCommit_no_compare by apply isCompareCommitsRequest_Log.
  now destruct (onlyShowUpdates w).
Qed.

(** C3. Without tracked paths (in particular when [files] is omitted) and
    with a latest commit other than the recorded one, the round ends with
    an available update and requests no comparison. *)
Theorem untracked_mismatch_is_update_without_comparison
    (w : World) (metadataFile : string) (metadata : Metadata)
    (latestCommit : Commit) (c : Counters) :
  readMetadata w metadataFile = Some metadata ->
  fst (getLatestCommit w (owner metadata) (repo metadata) (path metadata))
    = value latestCommit ->
  commit metadata <> sha latestCommit ->
  files metadata = None \/ trackedPaths path_join metadata = [] ->
  let r := checkMetadataFile path_join w metadataFile c in
  result r = VUpdateAvailable
  /\ counters r = incUpdatesAvailable (incTotalChecked c)
  /\ forall o r' base head,
       ~ In (CompareCommitsRequest o r' base head) (events r).
Proof.
  intros Hread Hlatest Hne Hnone r. subst r.
  assert (Hpaths : trackedPaths path_join metadata = [])
    by (destruct Hnone; [now apply trackedPaths_omitted | assumption]).
  rewrite (checkMetadataFile_other_commit w metadataFile metadata latestCommit c
             Hread Hlatest Hne).
  rewrite (checkTrackedFiles_untracked w metadata latestCommit _ Hpaths).
  unfold result, counters, events; simpl.
  split; [reflexivity|]. split; [reflexivity|].
  apply no_compare_request.
  rewrite !existsb_app, basicInfo_lines, latestInfo_lines, updateLines_lines,
    getLatestCommit_no_compare by apply isCompareCommitsRequest_Log.
  reflexivity.
Qed.

(** C4. A changed file is relevant exactly when, for some tracked path
    without its one leading ['/'], the file name contains the path or the
    path contains the file name; [getFileChanges] reports exactly the
    relevant files of the comparison; and the tracked path [src/app.json]
    makes [packages/foo/src/app.json] relevant. *)
Theorem relevant_iff_substring_either_way :
  (forall (filePaths : list string) (file : DiffEntry),
      isRelevant filePaths file = true
      <-> exists trackPath,
            In trackPath filePaths
            /\ (Substring (stripLeadingSlash trackPath) (diff_filename file)
                \/ Substring (diff_filename file) (stripLeadingSlash trackPath)))
  /\ (forall (w : World) (o r base head : string) (filePaths : list string),
         match compareCommits w o r base head with
         | Some comparisonFiles =>
             exists changes,
               fst (getFileChanges w o r base head filePaths) = Some changes
               /\ totalChanges changes = List.length comparisonFiles
               /\ relevantChanges changes
                  = List.length (filter (isRelevant filePaths) comparisonFiles)
               /\ changedFiles changes
                  = map changedFile (filter (isRelevant filePaths) comparisonFiles)
         | None => fst (getFileChanges w o r base head filePaths) = None
         end)
  /\ (forall (st url : string) (adds dels chgs : Z) (diff : option string),
         isRelevant ["src/app.json"]
           {| diff_filename := "packages/foo/src/app.json";
              diff_status := st;
              diff_additions := adds;
              diff_deletions := dels;
              diff_changes := chgs;
              diff_blob_url := url;
              diff_patch := diff |} = true).
Proof.
  split; [|split].
  - intros filePaths file. unfold isRelevant, matchesTrackPath.
    rewrite existsb_exists. split.
    + intros [trackPath [Hin Hmatch]]. exists trackPath. split; [assumption|].
      rewrite normalizedTrackPath_spec, orb_true_iff, !includes_spec in Hmatch.
      assumption.
    + intros [trackPath [Hin Hmatch]]. exists trackPath. split; [assumption|].
      rewrite normalizedTrackPath_spec, orb_true_iff, !includes_spec.
      assumption.
  - intros w o r base head filePaths. unfold getFileChanges.
    destruct (compareCommits w o r base head) as [comparisonFiles|]; simpl.
    + eexists. repeat split; reflexivity.
    + reflexivity.
  - intros st url adds dels chgs diff. reflexivity.
Qed.

(** C7. When the request for the latest commit is rejected, the error is
    printed and [null] is returned instead of throwing; the round sends
    the request, prints that error, counts an error, prints no up-to-date
    or update-available verdict, and the loop goes on with the remaining
    files. *)
Theorem failed_fetch_is_counted_and_skipped
    (w : World) (metadataFile : string) (metadata : Metadata) (c : Counters) :
  readMetadata w metadataFile = Some metadata ->
  listCommits w (owner metadata) (repo metadata) (orEmpty (path metadata)) = None ->
  let fetch := getLatestCommit w (owner metadata) (repo metadata) (path metadata) in
  let r := checkMetadataFile path_join w metadataFile c in
  fst fetch = null
  /\ In (LogError (ErrorFetchingCommits (owner metadata) (repo metadata))) (snd fetch)
  /\ result r = VError
  /\ counters r = incErrors (incTotalChecked c)
  /\ events r
     = basicInfo w metadata
       ++ [ListCommitsRequest (owner metadata) (repo metadata)
             (orEmpty (path metadata)) 1;
           LogError (ErrorFetchingCommits (owner metadata) (repo metadata))]
       ++ (if onlyShowUpdates w then [] else [Log CouldNotFetch])
  /\ existsb isVerdictLine (events r) = false
  /\ forall rest,
       let next := forEach rest (checkMetadataFile path_join w) (counters r) in
       forEach (metadataFile :: rest) (checkMetadataFile path_join w) c
       = (VError :: result next, counters next, events r ++ events next).
Proof.
  intros Hread Hfail fetch r. subst fetch r.
  pose proof (getLatestCommit_cases w (owner metadata) (repo metadata)
                (path metadata)) as Hfetch.
  rewrite Hfail in Hfetch.
  assert (Hround :
    checkMetadataFile path_join w metadataFile c
    = (VError, incErrors (incTotalChecked c),
       basicInfo w metadata
       ++ [ListCommitsRequest (owner metadata) (repo metadata)
             (orEmpty (path metadata)) 1;
           LogError (ErrorFetchingCommits (owner metadata) (repo metadata))]
       ++ (if onlyShowUpdates w then [] else [Log CouldNotFetch]))).
  { rewrite (checkMetadataFile_no_latest w metadataFile metadata c Hread);
      rewrite Hfetch; [reflexivity|discriminate]. }
  rewrite Hfetch.
  split; [reflexivity|]. split; [simpl; tauto|].
  split; [now rewrite Hround|]. split; [now rewrite Hround|].
  split; [now rewrite Hround|]. split.
  - rewrite Hround. unfold events, basicInfo; simpl.
    now destruct (onlyShowUpdates w).
  - intros rest. cbv zeta. rewrite forEach_cons, Hround. reflexivity.
Qed.

(** C8 (amended). A round that ends up to date or with an available update
    ends with one delay of 100 ms; a round that ends in an error performs
    no delay. *)
Theorem delay_follows_rounds_with_a_verdict
    (w : World) (metadataFile : string) (c : Counters) :
  let r := checkMetadataFile path_join w metadataFile c in
  match result r with
  | VError => existsb isDelay (events r) = false
  | VUpToDate | VUpdateAvailable =>
      exists before,
        events r = before ++ [Delay 100] /\ existsb isDelay before = false
  end.
Proof.
  intros r. subst r.
  pose proof (checkMetadataFile_round w metadataFile c) as Hround.
  simpl in Hround.
  destruct (result (checkMetadataFile path_join w metadataFile c));
    now destruct Hround.
Qed.

(** C9. When the list of commits comes back empty, [getLatestCommit]
    returns [undefined]; the round counts an error, prints no verdict and
    is left before the delay.  A round whose request is rejected differs
    only by the line that [getLatestCommit] prints about the rejection. *)
Theorem empty_commit_list_is_counted_as_error
    (w : World) (metadataFile : string) (metadata : Metadata) (c : Counters) :
  readMetadata w metadataFile = Some metadata ->
  listCommits w (owner metadata) (repo metadata) (orEmpty (path metadata))
    = Some [] ->
  let r := checkMetadataFile path_join w metadataFile c in
  fst (getLatestCommit w (owner metadata) (repo metadata) (path metadata))
    = undefined
  /\ result r = VError
  /\ counters r = incErrors (incTotalChecked c)
  /\ existsb isVerdictLine (events r) = false
  /\ existsb isDelay (events r) = false
  /\ forall w',
       readMetadata w' metadataFile = Some metadata ->
       onlyShowUpdates w' = onlyShowUpdates w ->
       listCommits w' (owner metadata) (repo metadata) (orEmpty (path metadata))
         = None ->
       let r' := checkMetadataFile path_join w' metadataFile c in
       result r' = result r
       /\ counters r' = counters r
       /\ exists before after,
            events r = before ++ after
            /\ events r'
               = before
                 ++ [LogError (ErrorFetchingCommits (owner metadata) (repo metadata))]
                 ++ after.
Proof.
  intros Hread Hempty r. subst r.
  pose proof (getLatestCommit_cases w (owner metadata) (repo metadata)
                (path metadata)) as Hfetch.
  rewrite Hempty in Hfetch.
  rewrite (checkMetadataFile_no_latest w metadataFile metadata c Hread)
    by (rewrite Hfetch; discriminate).
  rewrite Hfetch. unfold result, counters, events; simpl fst; simpl snd.
  split; [reflexivity|]. split; [reflexivity|]. split; [reflexivity|].
  split; [unfold basicInfo; now destruct (onlyShowUpdates w)|].
  split; [unfold basicInfo; now destruct (onlyShowUpdates w)|].
  intros w' Hread' Hshow Hfail.
  pose proof (getLatestCommit_cases w' (owner metadata) (repo metadata)
                (path metadata)) as Hfetch'.
  rewrite Hfail in Hfetch'.
  rewrite (checkMetadataFile_no_latest w' metadataFile metadata c Hread')
    by (rewrite Hfetch'; discriminate).
  rewrite Hfetch'. simpl.
  split; [reflexivity|]. split; [reflexivity|].
  exists (basicInfo w metadata
          ++ [ListCommitsRequest (owner metadata) (repo metadata)
                (orEmpty (path metadata)) 1]),
         (if onlyShowUpdates w then [] else [Log CouldNotFetch]).
  unfold basicInfo. rewrite Hshow, <- !app_assoc. split; reflexivity.
Qed.

(** *** The whole run *)

Lemma countVerdict_cons (v v' : Verdict) (vs : list Verdict) :
  countVerdict v (v' :: vs)
  = ((if sameVerdict v v' then 1 else 0) + countVerdict v vs)%Z.
Proof.
  unfold countVerdict. cbn [filter].
  destruct (sameVerdict v v'); cbn [List.length]; lia.
Qed.

Lemma countVerdict_total (vs : list Verdict) :
  (countVerdict VUpToDate vs + countVerdict VUpdateAvailable vs
   + countVerdict VError vs)%Z
  = Z.of_nat (List.length vs).
Proof.
  induction vs as [|v vs IH]; [reflexivity|].
  rewrite !countVerdict_cons. cbn [List.length]. rewrite Nat2Z.inj_succ.
  destruct v; cbn [sameVerdict]; lia.
Qed.

(** The counters after the loop count the rounds and their verdicts. *)
Lemma rounds_counters (w : World) (metadataFiles : list string) (c : Counters) :
  let r := forEach metadataFiles (checkMetadataFile path_join w) c in
  List.length (result r) = List.length metadataFiles
  /\ totalChecked (counters r)
     = (totalChecked c + Z.of_nat (List.length metadataFiles))%Z
  /\ updatesAvailable (counters r)
     = (updatesAvailable c + countVerdict VUpdateAvailable (result r))%Z
  /\ errors (counters r) = (errors c + countVerdict VError (result r))%Z.
Proof.
  revert c. induction metadataFiles as [|metadataFile rest IH]; intros c r; subst r.
  - unfold result, counters, countVerdict; simpl. repeat split; lia.
  - rewrite forEach_cons.
    pose proof (checkMetadataFile_round w metadataFile c) as Hround.
    specialize (IH (counters (checkMetadataFile path_join w metadataFile c))).
    cbv zeta in Hround, IH.
    destruct IH as (Hlen & Hchecked & Hupdates & Herrors).
    unfold result, counters in *. cbn [fst snd].
    rewrite !countVerdict_cons, Hchecked, Hupdates, Herrors.
    cbn [List.length]. rewrite Hlen, Nat2Z.inj_succ.
    destruct (fst (fst (checkMetadataFile path_join w metadataFile c)));
      destruct Hround as [-> _];
      cbn [sameVerdict incTotalChecked incUpdatesAvailable incErrors
           totalChecked updatesAvailable errors];
      repeat split; lia.
Qed.

(** The summary block of lines 210-214. *)
Lemma checkAll_run (w : World) (metadataFiles : list string) (c : Counters) :
  let rounds := forEach metadataFiles (checkMetadataFile path_join w) c in
  let c' := counters rounds in
  checkAll path_join w metadataFiles c
  = ((if (0 <? updatesAvailable c')%Z then Exited 0 else Resolved, result rounds),
     c',
     Log (Found (List.length metadataFiles))
     :: events rounds
     ++ [Log SummaryHeader;
         Log (SummaryChecked (totalChecked c'));
         Log (SummaryUpdates (updatesAvailable c'));
         Log (SummaryErrors (errors c'));
         Log (SummaryUpToDate (totalChecked c' - updatesAvailable c' - errors c'))]
     ++ (if (0 <? updatesAvailable c')%Z
         then [Log (UpdatesExist (updatesAvailable c')); ProcessExit 0]
         else [Log AllUpToDate])).
Proof.
  intros rounds c'. subst c' rounds. unfold checkAll.
  cbv beta iota zeta delta [bind ret emit log getCounters].
  destruct (forEach metadataFiles (checkMetadataFile path_join w) c)
    as [[verdicts c'] e'].
  unfold result, counters, events; simpl.
  destruct (0 <? updatesAvailable c')%Z; simpl; reflexivity.
Qed.

(** C5. When the scan succeeds, the summary reports the number of files as
    checked, and as updates, errors and up to date the numbers of rounds
    that ended so; checked = updates + errors + up to date.  (When the scan
    throws no summary is printed.) *)
Theorem summary_counters_add_up (w : World) :
  match findMetadataFiles path_join "./repositories" (repositories w) with
  | None => snd (script path_join w) = [Log Starting; LogError UncaughtError]
  | Some metadataFiles =>
      let rounds :=
        forEach metadataFiles (checkMetadataFile path_join w) zeroCounters in
      exists checked available errs upToDate closing,
        snd (script path_join w)
        = Log Starting
          :: Log (Found (List.length metadataFiles))
          :: events rounds
          ++ [Log SummaryHeader;
              Log (SummaryChecked checked);
              Log (SummaryUpdates available);
              Log (SummaryErrors errs);
              Log (SummaryUpToDate upToDate)]
          ++ closing
        /\ checked = (available + errs + upToDate)%Z
        /\ checked = Z.of_nat (List.length metadataFiles)
        /\ available = countVerdict VUpdateAvailable (result rounds)
        /\ errs = countVerdict VError (result rounds)
        /\ upToDate = countVerdict VUpToDate (result rounds)
  end.
Proof.
  destruct (findMetadataFiles path_join "./repositories" (repositories w))
    as [metadataFiles|] eqn:Hscan;
    [|unfold script, main; now rewrite Hscan].
  intros rounds. unfold script, main. rewrite Hscan, checkAll_run. fold rounds.
  destruct (rounds_counters w metadataFiles zeroCounters)
    as (Hlen & Hchecked & Hupdates & Herrors).
  fold rounds in Hlen, Hchecked, Hupdates, Herrors. simpl in Hchecked, Hupdates, Herrors.
  pose proof (countVerdict_total (result rounds)) as Htotal.
  rewrite Hlen in Htotal.
  exists (totalChecked (counters rounds)), (updatesAvailable (counters rounds)),
    (errors (counters rounds)),
    (totalChecked (counters rounds) - updatesAvailable (counters rounds)
     - errors (counters rounds))%Z,
    (if (0 <? updatesAvailable (counters rounds))%Z
     then [Log (UpdatesExist (updatesAvailable (counters rounds))); ProcessExit 0]
     else [Log AllUpToDate]).
  split.
  - simpl. now destruct (0 <? updatesAvailable (counters rounds))%Z.
  - repeat split; lia.
Qed.

(** C6 (amended). The exit status is 0 in every case: after a completed
    scan, whatever was found, and also when the scan of the root directory
    throws, where the rejection is printed and the process ends normally. *)
Theorem exit_status_is_always_zero (w : World) :
  match findMetadataFiles path_join "./repositories" (repositories w) with
  | None => script path_join w = (0%Z, [Log Starting; LogError UncaughtError])
  | Some _ => fst (script path_join w) = 0%Z
  end.
Proof.
  destruct (findMetadataFiles path_join "./repositories" (repositories w))
    as [metadataFiles|] eqn:Hscan; unfold script, main; rewrite Hscan.
  - rewrite checkAll_run. simpl.
    now destruct (0 <? updatesAvailable _)%Z.
  - reflexivity.
Qed.

End CheckUpdatesProperties.

(* ===================================================================== *)
(** ** Properties of the generator of categories.json *)
(* ===================================================================== *)

Section SortProperties.

Import GenerateCategories.

Context {A : Type}.
Variable compareFn : A -> A -> Z.


Hypothesis compareFn_total :
  forall a b, (0 < compareFn a b)%Z -> (compareFn b a <= 0)%Z.
Hypothesis compareFn_trans :
  forall a b c,
    (compareFn a b <= 0)%Z -> (compareFn b c <= 0)%Z -> (compareFn a c <= 0)%Z.

Lemma insert_Permutation (x : A) (l : list A) :
  Permutation (x :: l) (insert compareFn x l).
Proof.
  induction l as [|y l IH]; simpl; [apply Permutation_refl|].
  destruct (compareFn x y <=? 0)%Z; [apply Permutation_refl|].
  eapply perm_trans; [apply perm_swap|]. now apply perm_skip.
Qed.

Lemma sort_Permutation (l : list A) : Permutation l (sort compareFn l).
Proof.
  induction l as [|x l IH]; simpl; [apply perm_nil|].
  eapply perm_trans; [apply perm_skip, IH|apply insert_Permutation].
Qed.



End SortProperties.

Section GenerateCategoriesProperties.

Import GenerateCategories.

Variable localeCompare : string -> string -> Z.

Hypothesis localeCompare_total :
  forall a b, (0 < localeCompare a b)%Z -> (localeCompare b a <= 0)%Z.
Hypothesis localeCompare_trans :
  forall a b c,
    (localeCompare a b <= 0)%Z -> (localeCompare b c <= 0)%Z ->
    (localeCompare a c <= 0)%Z.

Lemma roundInteger_exact (x : Z) :
  (Z.abs x <= 2 ^ 53)%Z -> roundInteger x = Finite x.
Proof.
  intros Hsafe. unfold roundInteger.
  destruct (Z.leb_spec (Z.abs x) (2 ^ 53)); [reflexivity|lia].
Qed.

Lemma sumOfMagnitudes_nonneg (cats : list CategoryWithTimestamp) :
  (0 <= sumOfMagnitudes cats)%Z.
Proof.
  induction cats as [|cat cats IH]; cbn [sumOfMagnitudes]; lia.
Qed.

(** While the magnitudes add up to at most 2^53, the additions of
    line 217 are exact. *)
Lemma fold_left_sum (cats : list CategoryWithTimestamp) (start : Z) :
  (Z.abs start + sumOfMagnitudes cats <= 2 ^ 53)%Z ->
  fold_left (fun sum cat => jsAdd sum (Finite (count cat))) cats (Finite start)
  = Finite (start + sumOfCounts cats).
Proof.
  revert start. induction cats as [|cat cats IH]; intros start Hsafe;
    cbn [fold_left sumOfCounts sumOfMagnitudes] in *.
  - now rewrite Z.add_0_r.
  - pose proof (sumOfMagnitudes_nonneg cats) as Hrest.
    cbn [jsAdd]. rewrite roundInteger_exact by lia.
    rewrite IH by lia. f_equal. lia.
Qed.


End GenerateCategoriesProperties.

(* ===================================================================== *)
(** ** The properties on the sample inputs *)
(* ===================================================================== *)

Section SampleRuns.

Import CheckUpdates Sample.

(** The scan of the sample tree finds the one metadata file. *)
Example sample_scan :
  findMetadataFiles joinPosix "./repositories" tree = Some [metadataFile].
Proof. reflexivity. Qed.

(** The tracked file changed upstream: the whole run. *)
Example sample_run_with_update :
  script joinPosix changedWorld
  = (0%Z,
     [Log Starting;
      Log (Found 1);
      Log (Checking "Sample App" "octo" "apps");
      Log (Repository "octo" "apps");
      Log (CurrentCommit "abc123");
      Log (PathLine "/");
      ListCommitsRequest "octo" "apps" "" 1;
      Log (LatestCommit "def456");
      Log (LatestCommitDate "2025-02-01T00:00:00Z");
      Log (LatestCommitMessage "Update x");
      CompareCommitsRequest "octo" "apps" "abc123" "def456";
      Log UpdateAvailable;
      Log (CompareLink "octo" "apps" "abc123" "def456");
      Log (TotalRepositoryChanges 1);
      Log (RelevantFileChanges 1);
      Log ChangedFilesHeader;
      Log (ChangedFileLine (changedFile changedX));
      Log Blank;
      Delay 100;
      Log SummaryHeader;
      Log (SummaryChecked 1);
      Log (SummaryUpdates 1);
      Log (SummaryErrors 0);
      Log (SummaryUpToDate 0);
      Log (UpdatesExist 1);
      ProcessExit 0]).
Proof. reflexivity. Qed.

(** Only an unrelated file changed upstream: up to date, after a
    comparison that found nothing relevant. *)
Example sample_round_unrelated_change :
  checkMetadataFile joinPosix
    (world tree (Some tracked) (Some [newer])
       (Some [{| diff_filename := "README.md";
                 diff_status := "modified";
                 diff_additions := 1;
                 diff_deletions := 0;
                 diff_changes := 1;
                 diff_blob_url := "";
                 diff_patch := None |}]))
    metadataFile zeroCounters
  = (VUpToDate, incTotalChecked zeroCounters,
     [Log (Checking "Sample App" "octo" "apps");
      Log (Repository "octo" "apps");
      Log (CurrentCommit "abc123");
      Log (PathLine "/");
      ListCommitsRequest "octo" "apps" "" 1;
      Log (LatestCommit "def456");
      Log (LatestCommitDate "2025-02-01T00:00:00Z");
      Log (LatestCommitMessage "Update x");
      CompareCommitsRequest "octo" "apps" "abc123" "def456";
      Log UpToDateNoRelevantChanges;
      Delay 100]).
Proof. reflexivity. Qed.

(** The request for the latest commit is rejected: an error, no delay. *)
Example sample_round_rejected :
  checkMetadataFile joinPosix rejectedWorld metadataFile zeroCounters
  = (VError, incErrors (incTotalChecked zeroCounters),
     [Log (Checking "Sample App" "octo" "apps");
      Log (Repository "octo" "apps");
      Log (CurrentCommit "abc123");
      Log (PathLine "/");
      ListCommitsRequest "octo" "apps" "" 1;
      LogError (ErrorFetchingCommits "octo" "apps");
      Log CouldNotFetch]).
Proof. reflexivity. Qed.

(** C1 on the sample where the tracked file changed upstream. *)
Lemma tracked_verdict_follows_relevant_changes_witness :
  (readMetadata changedWorld metadataFile = Some tracked
   /\ fst (getLatestCommit changedWorld (owner tracked) (repo tracked) (path tracked))
      = value newer
   /\ commit tracked <> sha newer
   /\ trackedPaths joinPosix tracked <> [])
  /\ result (checkMetadataFile joinPosix changedWorld metadataFile zeroCounters)
     = VUpdateAvailable
  /\ counters (checkMetadataFile joinPosix changedWorld metadataFile zeroCounters)
     = incUpdatesAvailable (incTotalChecked zeroCounters).
Proof.
  assert (Hne : commit tracked <> sha newer) by discriminate.
  assert (Hsome : trackedPaths joinPosix tracked <> []) by discriminate.
  split; [repeat split; assumption|].
  destruct (tracked_verdict_follows_relevant_changes joinPosix changedWorld
              metadataFile tracked newer zeroCounters eq_refl eq_refl Hne Hsome)
    as (Hupdate & _ & Hcounted & _).
  split.
  - apply Hupdate. eexists. split; [reflexivity|]. simpl. lia.
  - eapply Hcounted; [reflexivity|]. simpl. lia.
Defined.

(** C2 on the sample where the recorded commit is the latest one. *)
Lemma same_commit_is_up_to_date_without_comparison_witness :
  (readMetadata upToDateWorld metadataFile = Some tracked
   /\ fst (getLatestCommit upToDateWorld (owner tracked) (repo tracked) (path tracked))
      = value recorded
   /\ commit tracked = sha recorded)
  /\ let r := checkMetadataFile joinPosix upToDateWorld metadataFile zeroCounters in
     result r = VUpToDate
     /\ counters r = incTotalChecked zeroCounters
     /\ forall o r' base head,
          ~ In (CompareCommitsRequest o r' base head) (events r).
Proof.
  split; [repeat split; reflexivity|].
  apply (same_commit_is_up_to_date_without_comparison joinPosix upToDateWorld
           metadataFile tracked recorded zeroCounters); reflexivity.
Defined.

(** C3 on the sample whose metadata has no [files]. *)
Lemma untracked_mismatch_is_update_without_comparison_witness :
  (readMetadata untrackedWorld metadataFile = Some untracked
   /\ fst (getLatestCommit untrackedWorld (owner untracked) (repo untracked)
             (path untracked))
      = value newer
   /\ commit untracked <> sha newer
   /\ (files untracked = None \/ trackedPaths joinPosix untracked = []))
  /\ let r := checkMetadataFile joinPosix untrackedWorld metadataFile zeroCounters in
     result r = VUpdateAvailable
     /\ counters r = incUpdatesAvailable (incTotalChecked zeroCounters)
     /\ forall o r' base head,
          ~ In (CompareCommitsRequest o r' base head) (events r).
Proof.
  assert (Hne : commit untracked <> sha newer) by discriminate.
  split; [repeat split; try assumption; try reflexivity; now left|].
  apply (untracked_mismatch_is_update_without_comparison joinPosix untrackedWorld
           metadataFile untracked newer zeroCounters eq_refl eq_refl Hne).
  now left.
Defined.

(** C7 on the sample where [listCommits] is rejected. *)
Lemma failed_fetch_is_counted_and_skipped_witness :
  (readMetadata rejectedWorld metadataFile = Some tracked
   /\ listCommits rejectedWorld (owner tracked) (repo tracked)
        (orEmpty (path tracked)) = None)
  /\ result (checkMetadataFile joinPosix rejectedWorld metadataFile zeroCounters)
     = VError.
Proof.
  split; [split; reflexivity|].
  destruct (failed_fetch_is_counted_and_skipped joinPosix rejectedWorld
              metadataFile tracked zeroCounters eq_refl eq_refl)
    as (_ & _ & Hverdict & _).
  exact Hverdict.
Defined.

(** C9 on the sample where [listCommits] answers with an empty list. *)
Lemma empty_commit_list_is_counted_as_error_witness :
  (readMetadata noCommitsWorld metadataFile = Some tracked
   /\ listCommits noCommitsWorld (owner tracked) (repo tracked)
        (orEmpty (path tracked)) = Some [])
  /\ result (checkMetadataFile joinPosix noCommitsWorld metadataFile zeroCounters)
     = VError.
Proof.
  split; [split; reflexivity|].
  destruct (empty_commit_list_is_counted_as_error joinPosix noCommitsWorld
              metadataFile tracked zeroCounters eq_refl eq_refl)
    as (_ & Hverdict & _).
  exact Hverdict.
Defined.

(** C6, as it was stated, fails: the scan of a missing root directory
    throws, and the exit status is 0. *)
Lemma exit_status_after_failed_scan_counterexample :
  ~ (findMetadataFiles joinPosix "./repositories" (repositories missingRootWorld)
     = None ->
     fst (script joinPosix missingRootWorld) <> 0%Z).
Proof. intros Hclaim. now apply Hclaim. Qed.

(** C8, as it was stated, fails: a round that cannot fetch the latest
    commit ends in an error and performs no delay. *)
Lemma delay_after_error_counterexample :
  result (checkMetadataFile joinPosix rejectedWorld metadataFile zeroCounters)
  = VError
  /\ ~ In (Delay 100)
          (events (checkMetadataFile joinPosix rejectedWorld metadataFile
                     zeroCounters)).
Proof.
  split; [reflexivity|].
  apply (existsb_none_In isDelay); reflexivity.
Qed.

End SampleRuns.

Section SampleIndex.

Import GenerateCategories Sample.





End SampleIndex.

(* ===================================================================== *)
(** ** Further properties of the update checker *)
(* ===================================================================== *)

Section ScanProperties.

Import CheckUpdates.

Variable path_join : string -> string -> string.

Lemma HoldsMetadata_nil (dir parent : string) :
  ~ HoldsMetadata path_join dir (Listing []) parent.
Proof. intros Hholds. inversion Hholds; contradiction. Qed.

Lemma HoldsMetadata_cons (dir parent : string) (entry : Dirent)
    (rest : list Dirent) :
  HoldsMetadata path_join dir (Listing (entry :: rest)) parent
  <-> (entry = Other "metadata.json" /\ parent = dir)
      \/ (exists entry_name contents,
            entry = Directory entry_name contents
            /\ HoldsMetadata path_join (path_join dir entry_name) contents parent)
      \/ HoldsMetadata path_join dir (Listing rest) parent.
Proof.
  split.
  - intros Hholds. inversion Hholds as [d es Hin|d n p' contents es Hin Hbelow]; subst.
    + destruct Hin as [->|Hin]; [now left|].
      right; right. now constructor.
    + destruct Hin as [->|Hin].
      * right; left. now exists n, contents.
      * right; right. now apply (holds_below _ _ n _ contents).
  - intros [[-> ->] | [(n & contents & -> & Hbelow) | Hrest]].
    + constructor. now left.
    + apply (holds_below _ _ n _ contents); [now left | assumption].
    + inversion Hrest as [d es Hin|d n p' contents es Hin Hbelow]; subst.
      * constructor. now right.
      * apply (holds_below _ _ n _ contents); [now right | assumption].
Qed.

(** The walk, by induction on the tree. *)
Lemma searchRecursively_spec :
  forall (d : Dir) (currentDir : string),
    match searchRecursively path_join currentDir d with
    | None => allReadable d = false
    | Some found =>
        allReadable d = true
        /\ List.length found = countMetadata d
        /\ forall p,
             In p found
             <-> exists parent,
                   HoldsMetadata path_join currentDir d parent
                   /\ p = path_join parent "metadata.json"
    end.
Proof.
  fix IH 1. intros [|entries] currentDir; [reflexivity|].
  simpl. induction entries as [|[entry_name contents|entry_name] rest IHrest].
  - repeat split; [contradiction|].
    intros (parent & Hholds & _). now apply HoldsMetadata_nil in Hholds.
  - specialize (IH contents (path_join currentDir entry_name)).
    destruct (searchRecursively path_join (path_join currentDir entry_name) contents)
      as [here|].
    + destruct IH as (Hread & Hcount & Hshape). rewrite Hread, <- Hcount.
      destruct ((fix loop (es : list Dirent) : option (list string) := _) rest)
        as [there|].
      * destruct IHrest as (Hread' & Hcount' & Hshape').
        rewrite Hread', <- Hcount', length_app.
        repeat split.
        -- intros Hin. apply in_app_iff in Hin. destruct Hin as [Hin|Hin].
           ++ apply Hshape in Hin. destruct Hin as (parent & Hholds & ->).
              exists parent. split; [|reflexivity].
              apply HoldsMetadata_cons. right; left.
              now exists entry_name, contents.
           ++ apply Hshape' in Hin. destruct Hin as (parent & Hholds & ->).
              exists parent. split; [|reflexivity].
              apply HoldsMetadata_cons. now right; right.
        -- intros (parent & Hholds & ->). apply in_app_iff.
           apply HoldsMetadata_cons in Hholds.
           destruct Hholds as [[Habsurd _] | [(n & c & Heq & Hbelow) | Hrest]];
             [discriminate| |].
           ++ injection Heq as <- <-. left. apply Hshape. now exists parent.
           ++ right. apply Hshape'. now exists parent.
      * rewrite IHrest. reflexivity.
    + now rewrite IH.
  - clear IH.
    destruct ((fix loop (es : list Dirent) : option (list string) := _) rest)
      as [there|].
    + destruct IHrest as (Hread' & Hcount' & Hshape').
      rewrite Hread', <- Hcount', length_app.
      split; [reflexivity|]. split.
      * now destruct (String.eqb entry_name "metadata.json").
      * intros p. rewrite in_app_iff, Hshape'. split.
        -- intros [Hin | (parent & Hholds & ->)].
           ++ destruct (String.eqb_spec entry_name "metadata.json") as [->|Hother];
                [|contradiction].
              destruct Hin as [<-|[]]. exists currentDir. split; [|reflexivity].
              apply HoldsMetadata_cons. now left.
           ++ exists parent. split; [|reflexivity].
              apply HoldsMetadata_cons. now right; right.
        -- intros (parent & Hholds & ->). apply HoldsMetadata_cons in Hholds.
           destruct Hholds as [[Heq ->] | [(n & c & Heq & _) | Hrest]];
             [|discriminate|].
           ++ injection Heq as ->. left. rewrite String.eqb_refl. now left.
           ++ right. now exists parent.
    + assumption.
Qed.

(** X1. The scan throws exactly when some directory of the tree cannot be
    listed, wherever it is. *)
Theorem scan_fails_iff_unreadable_directory (dir : string) (d : Dir) :
  findMetadataFiles path_join dir d = None <-> allReadable d = false.
Proof.
  unfold findMetadataFiles.
  pose proof (searchRecursively_spec d dir) as Hspec.
  destruct (searchRecursively path_join dir d) as [found|].
  - destruct Hspec as [Hread _]. rewrite Hread. split; discriminate.
  - now split.
Qed.

(** X2. A scan that succeeds returns one path for each entry named
    [metadata.json] that is not a directory, and the paths it returns are
    exactly those of [metadata.json] joined to the path of a directory of
    the tree that has such an entry, the path of a directory being joined
    from the root and the names on the way down. *)
Theorem scan_finds_the_metadata_files (dir : string) (d : Dir)
    (found : list string) :
  findMetadataFiles path_join dir d = Some found ->
  List.length found = countMetadata d
  /\ forall p,
       In p found
       <-> exists parent,
             HoldsMetadata path_join dir d parent
             /\ p = path_join parent "metadata.json".
Proof.
  unfold findMetadataFiles. intros Hscan.
  pose proof (searchRecursively_spec d dir) as Hspec. rewrite Hscan in Hspec.
  destruct Hspec as (_ & Hcount & Hshape).
  split; assumption.
Qed.

End ScanProperties.

Section RelevanceProperties.

Import CheckUpdates.

Variable path_join : string -> string -> string.


(** X4. A changed file is relevant when its name starts with a tracked
    path taken without its leading ['/']: the tracked file itself, and
    every file under a tracked directory. *)
Theorem file_under_tracked_path_is_relevant
    (filePaths : list string) (trackPath rest : string) (file : DiffEntry) :
  In trackPath filePaths ->
  diff_filename file = (stripLeadingSlash trackPath ++ rest)%string ->
  isRelevant filePaths file = true.
Proof.
  intros Hin Hname. unfold isRelevant. apply existsb_exists.
  exists trackPath. split; [assumption|].
  unfold matchesTrackPath. rewrite normalizedTrackPath_spec.
  apply orb_true_iff. left. apply includes_spec.
  exists "", rest. now rewrite Hname.
Qed.

(** X5. A tracked path that is ['/'] or empty makes every changed file
    relevant. *)
Theorem root_tracked_path_matches_every_file
    (filePaths : list string) (file : DiffEntry) :
  In "/" filePaths \/ In "" filePaths ->
  isRelevant filePaths file = true.
Proof.
  intros Hroot. unfold isRelevant. apply existsb_exists.
  destruct Hroot as [Hin|Hin]; eexists; (split; [exact Hin|]);
    unfold matchesTrackPath; simpl;
    destruct (diff_filename file); reflexivity.
Qed.

Lemma backslashesToSlashes_clean (s : string) :
  includes (backslashesToSlashes s) "\" = false.
Proof.
  induction s as [|c s IH]; [reflexivity|].
  cbn [backslashesToSlashes includes startsWith].
  rewrite IH, orb_false_r, andb_true_r.
  destruct (Ascii.eqb_spec c "\"%char) as [->|Hother]; [reflexivity|].
  apply Ascii.eqb_neq. congruence.
Qed.

(** X6. The tracked paths of a metadata file are never empty and contain
    no backslash, and there are at most as many as entries in [files]. *)
Theorem tracked_paths_are_clean (metadata : Metadata) :
  Forall (fun p => p <> "" /\ includes p "\" = false)
    (trackedPaths path_join metadata)
  /\ (List.length (trackedPaths path_join metadata)
      <= match files metadata with
         | Some entries => List.length entries
         | None => 0
         end)%nat.
Proof.
  unfold trackedPaths. destruct (files metadata) as [entries|].
  2: { split; [constructor | apply Nat.le_refl]. }
  split.
  - apply Forall_forall. intros p Hin. apply filter_In in Hin.
    destruct Hin as [Hin Hfull]. split.
    + apply negb_true_iff, String.eqb_neq in Hfull. assumption.
    + apply in_map_iff in Hin. destruct Hin as ([file|[source|]] & <- & _).
      * apply backslashesToSlashes_clean.
      * destruct (String.eqb source ""); [reflexivity|].
        apply backslashesToSlashes_clean.
      * reflexivity.
  - eapply Nat.le_trans; [apply filter_length_le|]. now rewrite length_map.
Qed.

End RelevanceProperties.

Section RoundProperties.

Import CheckUpdates.

Variable path_join : string -> string -> string.

Lemma filter_nothing {A} (p : A -> bool) (xs : list A) :
  existsb p xs = false -> filter p xs = [].
Proof.
  induction xs as [|x xs IH]; simpl; [reflexivity|].
  destruct (p x); [discriminate|]. exact IH.
Qed.

Lemma actions_app (es es' : list Event) :
  actions (es ++ es') = actions es ++ actions es'.
Proof. apply filter_app. Qed.

Lemma actions_of_lines (es : list Event) :
  existsb (fun e => negb (isLog e)) es = false -> actions es = [].
Proof. apply filter_nothing. Qed.

Lemma actions_getLatestCommit (w : World) (o r : string) (p : option string) :
  actions (snd (getLatestCommit w o r p)) = snd (getLatestCommit w o r p).
Proof.
  unfold getLatestCommit.
  destruct (listCommits w o r (orEmpty p)) as [[|latest more]|]; reflexivity.
Qed.

Lemma actions_getFileChanges (w : World) (o r b h : string) (ps : list string) :
  actions (snd (getFileChanges w o r b h ps)) = snd (getFileChanges w o r b h ps).
Proof.
  unfold getFileChanges. destruct (compareCommits w o r b h); reflexivity.
Qed.

Ltac drop_lines :=
  rewrite ?actions_app,
    ?(actions_of_lines _ (basicInfo_lines _ (fun l => eq_refl) _ _)),
    ?(actions_of_lines _ (latestInfo_lines _ (fun l => eq_refl) _ _)),
    ?(actions_of_lines _ (updateLines_lines _ (fun l => eq_refl) _ _ _)),
    ?(actions_of_lines _ (detailLines_lines _ (fun l => eq_refl) _ _)),
    ?actions_getLatestCommit, ?actions_getFileChanges.

(** The comparison of the tracked files, without its printing. *)
Lemma checkTrackedFiles_refines (w : World) (metadata : Metadata)
    (latestCommit : Commit) (c : Counters) :
  let r := checkTrackedFiles path_join w metadata latestCommit c in
  match trackedPaths path_join metadata with
  | [] => result r = VUpdateAvailable /\ actions (events r) = []
  | filePaths =>
      let comparison :=
        getFileChanges w (owner metadata) (repo metadata) (commit metadata)
          (sha latestCommit) filePaths in
      result r = match fst comparison with
                 | Some changes =>
                     if (0 <? relevantChanges changes)%nat
                     then VUpdateAvailable else VUpToDate
                 | None => VUpToDate
                 end
      /\ actions (events r) = snd comparison
  end.
Proof.
  intros r. subst r.
  destruct (trackedPaths path_join metadata) as [|p ps] eqn:Hpaths.
  - rewrite checkTrackedFiles_untracked by assumption.
    unfold result, events; simpl. split; [reflexivity|]. now drop_lines.
  - assert (Hsome : trackedPaths path_join metadata <> []) by congruence.
    rewrite (checkTrackedFiles_tracked path_join w metadata latestCommit c Hsome).
    rewrite Hpaths. cbv zeta.
    destruct (getFileChanges w (owner metadata) (repo metadata) (commit metadata)
                (sha latestCommit) (p :: ps)) as [[changes|] evs] eqn:Hcompare;
      simpl fst; simpl snd; cbv beta iota.
    + assert (Hevs : actions evs = evs).
      { pose proof (actions_getFileChanges w (owner metadata) (repo metadata)
                      (commit metadata) (sha latestCommit) (p :: ps)) as H.
        now rewrite Hcompare in H. }
      destruct (relevantChanges changes); unfold result, events; simpl;
        (split; [reflexivity|]); drop_lines; rewrite Hevs;
        destruct (onlyShowUpdates w); simpl; now rewrite ?app_nil_r.
    + assert (Hevs : actions evs = evs).
      { pose proof (actions_getFileChanges w (owner metadata) (repo metadata)
                      (commit metadata) (sha latestCommit) (p :: ps)) as H.
        now rewrite Hcompare in H. }
      unfold result, events; simpl. split; [reflexivity|].
      drop_lines. rewrite Hevs.
      destruct (onlyShowUpdates w); simpl; now rewrite ?app_nil_r.
Qed.

(** A round, without its printing: the verdict and the actions are those
    that the answers of the world decide. *)
Lemma checkMetadataFile_refines (w : World) (metadataFile : string) (c : Counters) :
  let r := checkMetadataFile path_join w metadataFile c in
  result r = roundVerdict path_join w metadataFile
  /\ actions (events r) = roundActions path_join w metadataFile.
Proof.
  intros r. subst r. unfold roundVerdict, roundActions.
  destruct (readMetadata w metadataFile) as [metadata|] eqn:Hread.
  2: { rewrite checkMetadataFile_unreadable by assumption. now split. }
  cbv zeta.
  destruct (fst (getLatestCommit w (owner metadata) (repo metadata) (path metadata)))
    as [| |latestCommit] eqn:Hlatest.
  1, 2: rewrite (checkMetadataFile_no_latest path_join w metadataFile metadata c Hread)
          by (intros latest; congruence);
        unfold result, events; simpl; split; [reflexivity|];
        drop_lines; destruct (onlyShowUpdates w); simpl; now rewrite ?app_nil_r.
  destruct (String.eqb_spec (commit metadata) (sha latestCommit)) as [Heq|Hne].
  - rewrite (checkMetadataFile_same_commit path_join w metadataFile metadata
               latestCommit c Hread Hlatest Heq).
    unfold result, events; simpl. split; [reflexivity|].
    drop_lines. destruct (onlyShowUpdates w); reflexivity.
  - rewrite (checkMetadataFile_other_commit path_join w metadataFile metadata
               latestCommit c Hread Hlatest Hne).
    pose proof (checkTrackedFiles_refines w metadata latestCommit (incTotalChecked c))
      as Hinner.
    cbv zeta in Hinner.
    destruct (checkTrackedFiles path_join w metadata latestCommit (incTotalChecked c))
      as [[v c'] e'].
    unfold result, events in *; simpl in *.
    drop_lines.
    destruct (trackedPaths path_join metadata) as [|p ps];
      destruct Hinner as [-> ->]; split; reflexivity.
Qed.

Lemma counters_of_verdict (w : World) (metadataFile : string) (c : Counters) :
  let r := checkMetadataFile path_join w metadataFile c in
  counters r = match result r with
               | VUpToDate => incTotalChecked c
               | VUpdateAvailable => incUpdatesAvailable (incTotalChecked c)
               | VError => incErrors (incTotalChecked c)
               end.
Proof.
  intros r. subst r.
  pose proof (checkMetadataFile_round path_join w metadataFile c) as Hround.
  cbv zeta in Hround.
  destruct (result (checkMetadataFile path_join w metadataFile c));
    now destruct Hround.
Qed.

Lemma filter_actions (p : Event -> bool) (es : list Event) :
  (forall l, p (Log l) = false) ->
  filter p (actions es) = filter p es.
Proof.
  intros Hlog. unfold actions.
  induction es as [|e es IH]; [reflexivity|].
  destruct e; simpl; rewrite ?Hlog, ?IH; reflexivity.
Qed.

(** X7. The verdict of a round, its counters and what it does besides
    [console.log] depend only on what the metadata file and the two
    requests answer: not on [DETAILED_OUTPUT], not on [ONLY_SHOW_UPDATES]. *)
Theorem printing_options_do_not_change_a_round
    (w w' : World) (metadataFile : string) (c : Counters) :
  readMetadata w' metadataFile = readMetadata w metadataFile ->
  (forall o r p, listCommits w' o r p = listCommits w o r p) ->
  (forall o r base head,
      compareCommits w' o r base head = compareCommits w o r base head) ->
  let r := checkMetadataFile path_join w metadataFile c in
  let r' := checkMetadataFile path_join w' metadataFile c in
  result r' = result r
  /\ counters r' = counters r
  /\ actions (events r') = actions (events r).
Proof.
  intros Hread Hlist Hcompare r r'. subst r r'.
  assert (Hfetch : forall o r p, getLatestCommit w' o r p = getLatestCommit w o r p).
  { intros o r p. unfold getLatestCommit. now rewrite Hlist. }
  assert (Hchanges : forall o r b h ps,
             getFileChanges w' o r b h ps = getFileChanges w o r b h ps).
  { intros o r b h ps. unfold getFileChanges. now rewrite Hcompare. }
  assert (Hverdict : roundVerdict path_join w' metadataFile
                     = roundVerdict path_join w metadataFile).
  { unfold roundVerdict. rewrite Hread.
    destruct (readMetadata w metadataFile) as [metadata|]; [|reflexivity].
    rewrite Hfetch.
    destruct (fst (getLatestCommit w (owner metadata) (repo metadata)
                     (path metadata))) as [| |latestCommit]; try reflexivity.
    destruct (String.eqb (commit metadata) (sha latestCommit)); [reflexivity|].
    destruct (trackedPaths path_join metadata); [reflexivity|].
    now rewrite Hchanges. }
  assert (Hactions : roundActions path_join w' metadataFile
                     = roundActions path_join w metadataFile).
  { unfold roundActions. rewrite Hread.
    destruct (readMetadata w metadataFile) as [metadata|]; [|reflexivity].
    cbv zeta. rewrite Hfetch.
    destruct (fst (getLatestCommit w (owner metadata) (repo metadata)
                     (path metadata))) as [| |latestCommit]; try reflexivity.
    destruct (String.eqb (commit metadata) (sha latestCommit)); [reflexivity|].
    destruct (trackedPaths path_join metadata); [reflexivity|].
    now rewrite Hchanges. }
  destruct (checkMetadataFile_refines w metadataFile c) as [Hv Ha].
  destruct (checkMetadataFile_refines w' metadataFile c) as [Hv' Ha'].
  rewrite !counters_of_verdict, Hv, Hv', Ha, Ha', Hverdict, Hactions.
  repeat split.
Qed.

(** X8. A round sends one [listCommits] request when the metadata file
    can be read and parsed, and none otherwise; it sends one
    [compareCommits] request, from the recorded commit to the latest one,
    when the latest commit is another one and some path is tracked, and
    none otherwise. *)
Theorem requests_of_a_round (w : World) (metadataFile : string) (c : Counters) :
  let r := checkMetadataFile path_join w metadataFile c in
  match readMetadata w metadataFile with
  | None =>
      filter isListCommitsRequest (events r) = []
      /\ filter isCompareCommitsRequest (events r) = []
  | Some metadata =>
      filter isListCommitsRequest (events r)
      = [ListCommitsRequest (owner metadata) (repo metadata)
           (orEmpty (path metadata)) 1]
      /\ filter isCompareCommitsRequest (events r)
         = match fst (getLatestCommit w (owner metadata) (repo metadata)
                        (path metadata)) with
           | value latestCommit =>
               if String.eqb (commit metadata) (sha latestCommit) then []
               else
                 match trackedPaths path_join metadata with
                 | [] => []
                 | _ :: _ =>
                     [CompareCommitsRequest (owner metadata) (repo metadata)
                        (commit metadata) (sha latestCommit)]
                 end
           | _ => []
           end
  end.
Proof.
  intros r. subst r.
  destruct (checkMetadataFile_refines w metadataFile c) as [_ Hactions].
  rewrite <- (filter_actions isListCommitsRequest) by reflexivity.
  rewrite <- (filter_actions isCompareCommitsRequest) by reflexivity.
  rewrite Hactions. unfold roundActions.
  destruct (readMetadata w metadataFile) as [metadata|]; [|now split].
  cbv zeta. unfold getLatestCommit.
  destruct (listCommits w (owner metadata) (repo metadata) (orEmpty (path metadata)))
    as [[|latestCommit more]|]; simpl fst; simpl snd; cbv beta iota;
    try (split; reflexivity).
  destruct (String.eqb (commit metadata) (sha latestCommit)); [now split|].
  destruct (trackedPaths path_join metadata) as [|p ps]; [now split|].
  unfold getFileChanges.
  destruct (compareCommits w (owner metadata) (repo metadata) (commit metadata)
              (sha latestCommit)); split; reflexivity.
Qed.

End RoundProperties.

Section RunProperties.

Import CheckUpdates.

Variable path_join : string -> string -> string.

Lemma delays_of_a_round (w : World) (metadataFile : string) (c : Counters) :
  let r := checkMetadataFile path_join w metadataFile c in
  filter isDelay (events r)
  = if notError (result r) then [Delay 100] else [].
Proof.
  intros r. subst r.
  pose proof (checkMetadataFile_round path_join w metadataFile c) as Hround.
  cbv zeta in Hround.
  destruct (result (checkMetadataFile path_join w metadataFile c));
    [destruct Hround as (_ & before & -> & Hnone)
    |destruct Hround as (_ & before & -> & Hnone)
    |destruct Hround as (_ & Hnone)];
    rewrite ?filter_app, (filter_nothing _ _ Hnone); reflexivity.
Qed.

Lemma result_of {A} (a : A) (c : Counters) (es : list Event) :
  result (a, c, es) = a.
Proof. reflexivity. Qed.

Lemma events_of {A} (a : A) (c : Counters) (es : list Event) :
  events (a, c, es) = es.
Proof. reflexivity. Qed.

Lemma delays_of_the_rounds (w : World) (metadataFiles : list string) (c : Counters) :
  let rounds := forEach metadataFiles (checkMetadataFile path_join w) c in
  filter isDelay (events rounds)
  = repeat (Delay 100) (List.length (filter notError (result rounds))).
Proof.
  revert c. induction metadataFiles as [|metadataFile rest IH]; intros c;
    [reflexivity|].
  cbv zeta. rewrite forEach_cons, result_of, events_of.
  rewrite filter_app, delays_of_a_round, IH. cbn [filter].
  destruct (notError (result (checkMetadataFile path_join w metadataFile c)));
    reflexivity.
Qed.

(** X9. A run waits 100 ms once for every round that does not end in an
    error, and at no other time; a run whose scan throws does not wait. *)
Theorem run_waits_once_per_round_without_error (w : World) :
  filter isDelay (snd (script path_join w))
  = match findMetadataFiles path_join "./repositories" (repositories w) with
    | None => []
    | Some metadataFiles =>
        let rounds :=
          forEach metadataFiles (checkMetadataFile path_join w) zeroCounters in
        repeat (Delay 100) (List.length (filter notError (result rounds)))
    end.
Proof.
  unfold script, main.
  destruct (findMetadataFiles path_join "./repositories" (repositories w))
    as [metadataFiles|]; [|reflexivity].
  rewrite checkAll_run. cbv zeta.
  rewrite <- delays_of_the_rounds.
  set (rounds := forEach metadataFiles (checkMetadataFile path_join w) zeroCounters).
  destruct (0 <? updatesAvailable (counters rounds))%Z; simpl;
    rewrite filter_app; simpl; now rewrite app_nil_r.
Qed.

(** X10. After a completed scan the run ends by reporting the number of
    updates and calling [process.exit(0)] when some round ended with an
    update; otherwise it ends by reporting that all repositories are up to
    date, also when rounds ended in errors. *)
Theorem run_closing_lines (w : World) (metadataFiles : list string) :
  findMetadataFiles path_join "./repositories" (repositories w)
    = Some metadataFiles ->
  let rounds :=
    forEach metadataFiles (checkMetadataFile path_join w) zeroCounters in
  let updates := countVerdict VUpdateAvailable (result rounds) in
  exists before,
    snd (script path_join w)
    = before ++ (if (0 <? updates)%Z
                 then [Log (UpdatesExist updates); ProcessExit 0]
                 else [Log AllUpToDate]).
Proof.
  intros Hscan rounds updates. unfold script, main. rewrite Hscan, checkAll_run.
  fold rounds.
  destruct (rounds_counters path_join w metadataFiles zeroCounters)
    as (_ & _ & Hupdates & _).
  fold rounds in Hupdates. simpl in Hupdates. fold updates in Hupdates.
  rewrite Hupdates.
  eexists (Log Starting :: Log (Found (List.length metadataFiles))
           :: events rounds ++ [_; _; _; _; _]).
  destruct (0 <? updates)%Z; simpl; now rewrite <- app_assoc.
Qed.

Lemma getLatestCommit_no_log (w : World) (o r : string) (p : option string) :
  existsb isLog (snd (getLatestCommit w o r p)) = false.
Proof.
  unfold getLatestCommit.
  destruct (listCommits w o r (orEmpty p)) as [[|latest more]|]; reflexivity.
Qed.

Lemma getFileChanges_no_log (w : World) (o r b h : string) (ps : list string) :
  existsb isLog (snd (getFileChanges w o r b h ps)) = false.
Proof.
  unfold getFileChanges. destruct (compareCommits w o r b h); reflexivity.
Qed.

(** X11. With [ONLY_SHOW_UPDATES], a round that does not end with an
    update prints nothing with [console.log]. *)
Theorem only_updates_are_shown
    (w : World) (metadataFile : string) (c : Counters) :
  onlyShowUpdates w = true ->
  let r := checkMetadataFile path_join w metadataFile c in
  result r <> VUpdateAvailable ->
  forall l, ~ In (Log l) (events r).
Proof.
  intros Honly r Hverdict l. subst r.
  apply (existsb_none_In isLog); [|reflexivity].
  revert Hverdict.
  destruct (readMetadata w metadataFile) as [metadata|] eqn:Hread.
  2: { now rewrite checkMetadataFile_unreadable by assumption. }
  pose proof (getLatestCommit_no_log w (owner metadata) (repo metadata)
                (path metadata)) as Hfetch.
  destruct (fst (getLatestCommit w (owner metadata) (repo metadata) (path metadata)))
    as [| |latestCommit] eqn:Hlatest.
  1, 2: rewrite (checkMetadataFile_no_latest path_join w metadataFile metadata c Hread)
          by (intros latest; congruence);
        intros _; unfold events, basicInfo; cbn [snd];
        rewrite Honly; cbn [app]; now rewrite existsb_app, Hfetch.
  destruct (String.eqb_spec (commit metadata) (sha latestCommit)) as [Heq|Hne].
  - rewrite (checkMetadataFile_same_commit path_join w metadataFile metadata
               latestCommit c Hread Hlatest Heq).
    intros _. unfold events, basicInfo, latestInfo; cbn [snd].
    rewrite Honly. cbn [app]. now rewrite existsb_app, Hfetch.
  - rewrite (checkMetadataFile_other_commit path_join w metadataFile metadata
               latestCommit c Hread Hlatest Hne).
    unfold result, events, basicInfo, latestInfo; cbn [fst snd].
    rewrite Honly. cbn [app]. rewrite !existsb_app, Hfetch. cbn [existsb orb].
    rewrite orb_false_r.
    destruct (trackedPaths path_join metadata) as [|p ps] eqn:Hpaths.
    + now rewrite checkTrackedFiles_untracked by assumption.
    + assert (Hsome : trackedPaths path_join metadata <> []) by congruence.
      rewrite (checkTrackedFiles_tracked path_join w metadata latestCommit _ Hsome).
      rewrite Hpaths. cbv zeta.
      pose proof (getFileChanges_no_log w (owner metadata) (repo metadata)
                    (commit metadata) (sha latestCommit) (p :: ps)) as Hcompare.
      destruct (getFileChanges w (owner metadata) (repo metadata) (commit metadata)
                  (sha latestCommit) (p :: ps)) as [[changes|] evs];
        cbn [fst snd] in *; [destruct (relevantChanges changes)|];
        cbn [fst snd]; intros Hverdict; try congruence;
        now rewrite Honly, existsb_app, Hcompare.
Qed.

End RunProperties.

(* ===================================================================== *)
(** ** Further properties of the generator of categories.json *)
(* ===================================================================== *)

Section CategoryFileProperties.

Import GenerateCategories.

(** X12. A file of the releases directory is read as a category file
    exactly when its name starts with [category-] and ends with [.json];
    the test against [categories.json] never changes the outcome, and the
    index itself is never read back. *)
Theorem category_file_test (file : string) :
  isCategoryFile file = startsWith file "category-" && endsWith file ".json"
  /\ isCategoryFile "categories.json" = false.
Proof.
  split; [|reflexivity]. unfold isCategoryFile.
  destruct (String.eqb_spec file "categories.json") as [->|Hother];
    [reflexivity | apply andb_true_r].
Qed.

Lemma startsWith_json_suffix (t : string) :
  startsWith (t ++ ".json") ".json" = true ->
  t = "" \/ startsWith t ".json" = true.
Proof.
  intros Hstarts.
  destruct t as [|c1 [|c2 [|c3 [|c4 [|c5 t]]]]];
    cbn [append startsWith] in *; [now left| | | | |now right];
    exfalso;
    repeat match goal with
           | H : context [Ascii.eqb ?a ?c] |- _ =>
               is_var c; destruct (Ascii.eqb a c)
           end;
    simpl in Hstarts; discriminate.
Qed.

Lemma replaceFirst_json_suffix (slug : string) :
  includes slug ".json" = false ->
  replaceFirst (slug ++ ".json") ".json" "" = slug.
Proof.
  induction slug as [|c slug IH]; intros Hclean; [reflexivity|].
  cbn [includes] in Hclean. apply orb_false_iff in Hclean.
  destruct Hclean as [Hhere Hlater].
  change ((String c slug ++ ".json")%string)
    with (String c (slug ++ ".json")%string).
  cbn [replaceFirst].
  destruct (startsWith (String c (slug ++ ".json")) ".json") eqn:Hstarts.
  - apply (startsWith_json_suffix (String c slug)) in Hstarts.
    destruct Hstarts; congruence.
  - now rewrite IH.
Qed.

Lemma endsWith_append (s p : string) : endsWith (s ++ p) p = true.
Proof.
  induction s as [|c s IH].
  - destruct p; simpl; [reflexivity|].
    now rewrite Ascii.eqb_refl, String.eqb_refl.
  - change ((String c s ++ p)%string) with (String c (s ++ p)%string).
    cbn [endsWith]. rewrite IH. apply orb_true_r.
Qed.

(** X13. A category file named [category-<slug>.json], whose slug does not
    contain [.json], is read with that slug, and the path for which its
    timestamp is asked is that of the file in [releases]. *)
Theorem slug_of_category_file
    (w : World) (slug : string) (categoryData : CategoryData) :
  includes slug ".json" = false ->
  let categoryFile := ("category-" ++ slug ++ ".json")%string in
  readCategoryFile w categoryFile = Some categoryData ->
  isCategoryFile categoryFile = true
  /\ readEach w [categoryFile]
     = [{| cat_name := category categoryData;
           cat_slug := slug;
           cat_count := data_count categoryData;
           cat_filePath := categoryFile |}]
  /\ CategoryTimestamp.categoryFilePath slug = ("releases/" ++ categoryFile)%string.
Proof.
  intros Hclean categoryFile Hread. subst categoryFile.
  split; [|split].
  - pose proof (endsWith_append ("category-" ++ slug) ".json") as Hends.
    unfold isCategoryFile. cbn [append] in Hends |- *.
    rewrite Hends. reflexivity.
  - cbn [readEach]. rewrite Hread.
    replace (replaceFirst ("category-" ++ slug ++ ".json") "category-" "")
      with (slug ++ ".json")%string by reflexivity.
    now rewrite replaceFirst_json_suffix.
  - reflexivity.
Qed.

End CategoryFileProperties.

Section IndexProperties.

Import GenerateCategories.

Lemma readEach_In (w : World) (categoryFiles : list string) (c : Category) :
  In c (readEach w categoryFiles)
  <-> exists categoryFile categoryData,
        In categoryFile categoryFiles
        /\ readCategoryFile w categoryFile = Some categoryData
        /\ c = {| cat_name := category categoryData;
                  cat_slug :=
                    replaceFirst (replaceFirst categoryFile "category-" "")
                      ".json" "";
                  cat_count := data_count categoryData;
                  cat_filePath := categoryFile |}.
Proof.
  induction categoryFiles as [|file rest IH]; cbn [readEach].
  - split; [contradiction|]. now intros (f & data & [] & _).
  - destruct (readCategoryFile w file) as [data|] eqn:Hread.
    + cbn [In]. rewrite IH. split.
      * intros [<- | (f & data' & Hin & Hread' & ->)].
        -- exists file, data. repeat split; [now left | assumption].
        -- exists f, data'. repeat split; [now right | assumption].
      * intros (f & data' & [<- | Hin] & Hread' & ->).
        -- left. rewrite Hread in Hread'. now injection Hread' as <-.
        -- right. now exists f, data'.
    + rewrite IH. split.
      * intros (f & data' & Hin & Hread' & ->).
        exists f, data'. repeat split; [now right | assumption].
      * intros (f & data' & [<- | Hin] & Hread' & ->); [congruence|].
        now exists f, data'.
Qed.

(** X14. The categories read are those of the files of the releases
    directory that pass the name test and can be read and parsed, each
    with the name and the count of its file; the other files, a file that
    cannot be read, and a missing directory give no category. *)
Theorem categories_read_are_the_parsed_category_files
    (w : World) (c : Category) :
  In c (readCategoryFiles w)
  <-> exists files categoryFile categoryData,
        releasesDir w = Some files
        /\ In categoryFile files
        /\ isCategoryFile categoryFile = true
        /\ readCategoryFile w categoryFile = Some categoryData
        /\ c = {| cat_name := category categoryData;
                  cat_slug :=
                    replaceFirst (replaceFirst categoryFile "category-" "")
                      ".json" "";
                  cat_count := data_count categoryData;
                  cat_filePath := categoryFile |}.
Proof.
  unfold readCategoryFiles. destruct (releasesDir w) as [files|].
  - rewrite readEach_In. split.
    + intros (f & data & Hin & Hread & ->). apply filter_In in Hin.
      destruct Hin as [Hin Htest]. now exists files, f, data.
    + intros (files' & f & data & Hdir & Hin & Htest & Hread & ->).
      injection Hdir as <-. exists f, data.
      split; [now apply filter_In | now split].
  - split; [contradiction|]. now intros (files & f & data & Hdir & _).
Qed.

Lemma sumOfCounts_Permutation (l l' : list CategoryWithTimestamp) :
  Permutation l l' -> sumOfCounts l = sumOfCounts l'.
Proof.
  induction 1 as [|x l l' _ IH|x y l|l l' l'' _ IH _ IH']; simpl; lia.
Qed.

Lemma sumOfCounts_withTimestamps (w : World) (cats : list Category) :
  sumOfCounts (withTimestamps w cats) = sumOfRead cats.
Proof.
  induction cats as [|cat cats IH]; simpl; [reflexivity|]. now rewrite IH.
Qed.

Lemma sumOfMagnitudes_Permutation (l l' : list CategoryWithTimestamp) :
  Permutation l l' -> sumOfMagnitudes l = sumOfMagnitudes l'.
Proof.
  induction 1 as [|x l l' _ IH|x y l|l l' l'' _ IH _ IH']; simpl; lia.
Qed.

Lemma sumOfMagnitudes_withTimestamps (w : World) (cats : list Category) :
  sumOfMagnitudes (withTimestamps w cats) = sumOfMagnitudesRead cats.
Proof.
  induction cats as [|cat cats IH]; simpl; [reflexivity|]. now rewrite IH.
Qed.

(** X15. Whatever [localeCompare] answers, a written index counts the
    categories that were read and lists as many entries; and when the
    magnitudes of the counts read add up to at most 2^53, [totalApps] is
    the sum of the counts read, in whatever order they were sorted. *)
Theorem index_totals_are_those_of_the_categories_read
    (localeCompare : string -> string -> Z) (w : World)
    (categoriesData : CategoriesData) :
  main localeCompare w = Written categoriesData ->
  totalCategories categoriesData = List.length (readCategoryFiles w)
  /\ List.length (categories categoriesData) = List.length (readCategoryFiles w)
  /\ ((sumOfMagnitudesRead (readCategoryFiles w) <= 2 ^ 53)%Z ->
      totalApps categoriesData = Finite (sumOfRead (readCategoryFiles w))).
Proof.
  unfold main. intros Hmain.
  destruct (List.length (readCategoryFiles w) =? 0)%nat; [discriminate|].
  destruct (writable w); [|discriminate].
  injection Hmain as <-. unfold buildIndex; cbn [totalCategories totalApps categories].
  set (compareFn := fun a b => localeCompare (name a) (name b)).
  pose proof (sort_Permutation compareFn (withTimestamps w (readCategoryFiles w)))
    as Hperm.
  assert (Hlength : List.length (sort compareFn (withTimestamps w (readCategoryFiles w)))
                    = List.length (readCategoryFiles w)).
  { rewrite <- (Permutation_length Hperm). unfold withTimestamps.
    apply length_map. }
  split; [assumption|]. split; [assumption|].
  intros Hsafe.
  rewrite fold_left_sum.
  - now rewrite <- (sumOfCounts_Permutation _ _ Hperm), sumOfCounts_withTimestamps.
  - rewrite <- (sumOfMagnitudes_Permutation _ _ Hperm),
      sumOfMagnitudes_withTimestamps.
    simpl Z.abs. lia.
Qed.

(** X18. Every entry of a written index carries the name, the slug and
    the count of one category read, with the timestamp of that slug; and
    every category read has its entry. *)
Theorem index_entries_keep_their_data
    (localeCompare : string -> string -> Z) (w : World)
    (categoriesData : CategoriesData) (entry : CategoryWithTimestamp) :
  main localeCompare w = Written categoriesData ->
  In entry (categories categoriesData)
  <-> exists c,
        In c (readCategoryFiles w)
        /\ entry = {| name := cat_name c;
                      slug := cat_slug c;
                      count := cat_count c;
                      lastUpdated :=
                        getLastCommitTimestampForCategoryFile w (cat_slug c) |}.
Proof.
  unfold main. intros Hmain.
  destruct (List.length (readCategoryFiles w) =? 0)%nat; [discriminate|].
  destruct (writable w); [|discriminate].
  injection Hmain as <-. unfold buildIndex; cbn [categories].
  set (compareFn := fun a b => localeCompare (name a) (name b)).
  pose proof (sort_Permutation compareFn (withTimestamps w (readCategoryFiles w)))
    as Hperm.
  split.
  - intros Hin. apply (Permutation_in _ (Permutation_sym Hperm)) in Hin.
    unfold withTimestamps in Hin. apply in_map_iff in Hin.
    destruct Hin as (c & <- & Hin). now exists c.
  - intros (c & Hin & ->). apply (Permutation_in _ Hperm).
    unfold withTimestamps. apply in_map_iff. now exists c.
Qed.

End IndexProperties.

Section TimestampProperties.

Import CategoryTimestamp.

Variable parseInt : string -> option Z.

(** What [tryCommand] accepts. *)
Lemma tryCommand_accepts (h : Host) (i : nat) (gitCommand : string) (timestamp : Z) :
  tryCommand parseInt h i gitCommand = Some timestamp ->
  exists result,
    execSync h gitCommand = Some result
    /\ result <> ""
    /\ parseInt result = Some timestamp
    /\ (now h i - oneYear <= timestamp <= now h i + oneHour)%Z.
Proof.
  unfold tryCommand, oneYear, oneHour. intros Haccepted.
  destruct (execSync h gitCommand) as [result|]; [|discriminate].
  destruct (String.eqb_spec result "") as [|Hfull]; [discriminate|].
  destruct (parseInt result) as [t|] eqn:Hparse; [|discriminate].
  destruct (validDate t); [|discriminate].
  destruct (Z.leb_spec (now h i - 365 * 24 * 60 * 60) t);
    destruct (Z.leb_spec t (now h i + 60 * 60));
    simpl in Haccepted; try discriminate.
  injection Haccepted as <-. exists result.
  repeat split; try reflexivity; try assumption; lia.
Qed.

Lemma tryCommands_accepts (h : Host) (commands : list string) (i : nat)
    (timestamp : Z) :
  tryCommands parseInt h i commands = Some timestamp ->
  exists k gitCommand result,
    nth_error commands k = Some gitCommand
    /\ execSync h gitCommand = Some result
    /\ parseInt result = Some timestamp
    /\ (now h (i + k) - oneYear <= timestamp <= now h (i + k) + oneHour)%Z.
Proof.
  revert i. induction commands as [|gitCommand rest IH]; intros i; cbn [tryCommands];
    [discriminate|].
  destruct (tryCommand parseInt h i gitCommand) as [t|] eqn:Hfirst.
  - intros Hsome. injection Hsome as <-.
    apply tryCommand_accepts in Hfirst.
    destruct Hfirst as (result & Hrun & _ & Hparse & Hsane).
    exists 0, gitCommand, result. rewrite Nat.add_0_r. now repeat split.
  - intros Hlater. apply IH in Hlater.
    destruct Hlater as (k & cmd & result & Hnth & Hrun & Hparse & Hsane).
    exists (S k), cmd, result. rewrite Nat.add_succ_r. now repeat split.
Qed.

(** X16. The timestamp of a category file is always one of three: a time
    printed by one of the four [git log] commands on the file, not older
    than a year and not later than an hour after the clock at that moment;
    or, when the file exists, the time printed by [git log] on the
    [releases] directory, whatever it is; or the clock. *)
Theorem timestamp_comes_from_git_or_the_clock (h : Host) (categorySlug : string) :
  let timestamp := getLastCommitTimestampForCategoryFile parseInt h categorySlug in
  (exists i gitCommand result,
      nth_error (gitCommands (categoryFilePath categorySlug)) i = Some gitCommand
      /\ execSync h gitCommand = Some result
      /\ parseInt result = Some timestamp
      /\ (now h i - oneYear <= timestamp <= now h i + oneHour)%Z)
  \/ (existsSync h (categoryFilePath categorySlug) = true
      /\ exists dirResult,
           execSync h dirCommand = Some dirResult
           /\ parseInt dirResult = Some timestamp)
  \/ timestamp = now h 4.
Proof.
  intros timestamp. subst timestamp. unfold getLastCommitTimestampForCategoryFile.
  destruct (tryCommands parseInt h 0 (gitCommands (categoryFilePath categorySlug)))
    as [t|] eqn:Hloop.
  - left. apply tryCommands_accepts in Hloop. exact Hloop.
  - unfold tryDirectory.
    destruct (existsSync h (categoryFilePath categorySlug)); [|now right; right].
    destruct (execSync h dirCommand) as [dirResult|]; [|now right; right].
    destruct (String.eqb dirResult ""); [now right; right|].
    destruct (parseInt dirResult) as [t|] eqn:Hparse; [|now right; right].
    destruct (validDate t); [|now right; right].
    right; left. split; [reflexivity|]. now exists dirResult.
Qed.

(** X17. When every [git] command throws, the timestamp is the clock. *)
Theorem timestamp_without_git_is_the_clock (h : Host) (categorySlug : string) :
  (forall command, execSync h command = None) ->
  getLastCommitTimestampForCategoryFile parseInt h categorySlug = now h 4.
Proof.
  intros Hthrows.
  unfold getLastCommitTimestampForCategoryFile, tryDirectory, gitCommands.
  cbn [tryCommands]. unfold tryCommand. rewrite !Hthrows.
  now destruct (existsSync h (categoryFilePath categorySlug)).
Qed.

End TimestampProperties.

(* ===================================================================== *)
(** ** The further properties on sample inputs *)
(* ===================================================================== *)

Section MoreSampleRuns.

Import CheckUpdates Sample MoreSamples.

(** X2 on the sample tree. *)
Lemma scan_finds_the_metadata_files_witness :
  findMetadataFiles joinNode "./repositories" tree
    = Some ["repositories/apps/metadata.json"]
  /\ In "repositories/apps/metadata.json" ["repositories/apps/metadata.json"]
  /\ exists parent,
       HoldsMetadata joinNode "./repositories" tree parent
       /\ "repositories/apps/metadata.json" = joinNode parent "metadata.json".
Proof.
  assert (Hin : In "repositories/apps/metadata.json"
                  ["repositories/apps/metadata.json"]) by now left.
  split; [reflexivity|]. split; [exact Hin|].
  destruct (scan_finds_the_metadata_files joinNode "./repositories" tree
              ["repositories/apps/metadata.json"] eq_refl) as [_ Hpaths].
  apply Hpaths. exact Hin.
Defined.

(** X4 on the tracked directory [/lib] and the changed file [lib/x.js]. *)
Lemma file_under_tracked_path_is_relevant_witness :
  (In "/lib" ["/lib"]
   /\ diff_filename changedX = (stripLeadingSlash "/lib" ++ "/x.js")%string)
  /\ isRelevant ["/lib"] changedX = true.
Proof.
  assert (Hin : In "/lib" ["/lib"]) by now left.
  split; [split; [exact Hin | reflexivity]|].
  exact (file_under_tracked_path_is_relevant ["/lib"] "/lib" "/x.js" changedX
           Hin eq_refl).
Defined.

(** X5 on the tracked path [/]. *)
Lemma root_tracked_path_matches_every_file_witness :
  (In "/" ["/"] \/ In "" ["/"]) /\ isRelevant ["/"] changedX = true.
Proof.
  assert (Hroot : In "/" ["/"] \/ In "" ["/"]) by (left; now left).
  split; [exact Hroot|].
  exact (root_tracked_path_matches_every_file ["/"] changedX Hroot).
Defined.

(** X7 on the sample with the changed file, printed fully and quietly. *)
Lemma printing_options_do_not_change_a_round_witness :
  result (checkMetadataFile joinPosix (quiet changedWorld) metadataFile zeroCounters)
  = result (checkMetadataFile joinPosix changedWorld metadataFile zeroCounters).
Proof.
  destruct (printing_options_do_not_change_a_round joinPosix changedWorld
              (quiet changedWorld) metadataFile zeroCounters eq_refl
              (fun o r p => eq_refl) (fun o r base head => eq_refl))
    as (Hverdict & _).
  exact Hverdict.
Defined.

(** X10 on the sample with the changed file. *)
Lemma run_closing_lines_witness :
  findMetadataFiles joinPosix "./repositories" (repositories changedWorld)
    = Some [metadataFile]
  /\ exists before,
       snd (script joinPosix changedWorld)
       = before ++ [Log (UpdatesExist 1); ProcessExit 0].
Proof.
  split; [reflexivity|].
  exact (run_closing_lines joinPosix changedWorld [metadataFile] eq_refl).
Defined.

(** X11 on the sample that is up to date, printed quietly. *)
Lemma only_updates_are_shown_witness :
  (onlyShowUpdates (quiet upToDateWorld) = true
   /\ result (checkMetadataFile joinPosix (quiet upToDateWorld) metadataFile
                zeroCounters) <> VUpdateAvailable)
  /\ forall l,
       ~ In (Log l)
            (events (checkMetadataFile joinPosix (quiet upToDateWorld)
                       metadataFile zeroCounters)).
Proof.
  assert (Hverdict :
    result (checkMetadataFile joinPosix (quiet upToDateWorld) metadataFile
              zeroCounters) <> VUpdateAvailable) by discriminate.
  split; [split; [reflexivity | exact Hverdict]|].
  exact (only_updates_are_shown joinPosix (quiet upToDateWorld) metadataFile
           zeroCounters eq_refl Hverdict).
Defined.

End MoreSampleRuns.

Section MoreSampleIndex.

Import GenerateCategories Sample MoreSamples.

(** X13 on the sample file [category-games.json]. *)
Lemma slug_of_category_file_witness :
  (includes "games" ".json" = false
   /\ readCategoryFile releases "category-games.json" = Some games)
  /\ isCategoryFile "category-games.json" = true.
Proof.
  split; [split; reflexivity|].
  destruct (slug_of_category_file releases "games" games eq_refl eq_refl)
    as (Htest & _).
  exact Htest.
Defined.

(** X15 on the sample releases directory. *)
Lemma index_totals_are_those_of_the_categories_read_witness :
  main compareCodeUnits releases = Written index
  /\ totalApps index = Finite (sumOfRead (readCategoryFiles releases)).
Proof.
  split; [reflexivity|].
  destruct (index_totals_are_those_of_the_categories_read compareCodeUnits
              releases index eq_refl) as (_ & _ & Htotal).
  apply Htotal. vm_compute. discriminate.
Defined.

(** X18 on the sample releases directory and its entry for [Audio]. *)
Lemma index_entries_keep_their_data_witness :
  main compareCodeUnits releases = Written index
  /\ (In audioEntry (categories index)
      <-> exists c,
            In c (readCategoryFiles releases)
            /\ audioEntry
               = {| name := cat_name c;
                    slug := cat_slug c;
                    count := cat_count c;
                    lastUpdated :=
                      getLastCommitTimestampForCategoryFile releases (cat_slug c) |}).
Proof.
  split; [reflexivity|].
  exact (index_entries_keep_their_data compareCodeUnits releases index
           audioEntry eq_refl).
Defined.

(** X17 on a host where [git] is missing. *)
Lemma timestamp_without_git_is_the_clock_witness :
  (forall command, CategoryTimestamp.execSync withoutGit command = None)
  /\ CategoryTimestamp.getLastCommitTimestampForCategoryFile (fun _ => None)
       withoutGit "games"
     = CategoryTimestamp.now withoutGit 4.
Proof.
  split; [reflexivity|].
  exact (timestamp_without_git_is_the_clock (fun _ => None) withoutGit "games"
           (fun command => eq_refl)).
Defined.

End MoreSampleIndex.
